(** * Bench pattern analysis: the statistics and rule derivation of
      [analyze_bench_patterns.py], embedded as pure functions.

    Number model.  Python floats are modelled by exact rationals ([Q]):
    rounding, infinities and NaN are outside the model.  A division whose
    divisor is zero raises [ZeroDivisionError], as it does on Python floats
    and ints.  The square root used by the geometry and statistics libraries
    is a parameter of the model: no property of it is assumed.

    Containers.  A pandas frame is the list of its rows, a Python [set] of
    ids a [gset Z], a Python [dict] a [gmap].  Console output is left out. *)

From Stdlib Require Import ZArith QArith Qminmax Lia Lqa.
From stdpp Require Import gmap strings list sorting.

Local Open Scope Q_scope.

(** ** Exceptions *)

Inductive exn := GeometryError | ZeroDivisionError | KeyError.

Inductive result (A : Type) :=
  | Ok (a : A)
  | Raise (e : exn).
Arguments Ok {A} a.
Arguments Raise {A} e.

Global Instance result_bind : MBind result := λ A B f m,
  match m with
  | Ok a => f a
  | Raise e => Raise e
  end.

(** ** Numbers *)

Definition of_nat (n : nat) : Q := inject_Z (Z.of_nat n).

(** [x > y] on numbers. *)
Definition Qgtb (x y : Q) : bool := negb (Qle_bool x y).

(** [x / y]: raises on a zero divisor. *)
Definition py_div (x y : Q) : result Q :=
  if Qeq_bool y 0 then Raise ZeroDivisionError else Ok (x / y).

Definition Qsum (l : list Q) : Q := foldl Qplus 0 l.

(** numpy: [np.mean], [np.std] (population standard deviation, [ddof = 0]),
    [np.min], [np.max].  The statistics are only ever taken of non-empty
    lists (see [canonical_entry_count] and [clustering_rule_sample]). *)
Definition np_mean (l : list Q) : Q := Qsum l / of_nat (length l).

Definition np_min (l : list Q) : Q :=
  match l with
  | [] => 0
  | x :: l' => foldl Qmin x l'
  end.

Definition np_max (l : list Q) : Q :=
  match l with
  | [] => 0
  | x :: l' => foldl Qmax x l'
  end.

(** Square root on rationals that is exact on squares of rationals: the
    instance of the square-root parameter used to run the model. *)
Definition Qsqrt (q : Q) : Q := Z.sqrt (Qnum q * Zpos (Qden q)) # Qden q.

(** ** Data model *)

Definition Coord : Type := Q * Q.

(** A raw street-furniture record: [objectid] and
    [geo_shape.geometry.coordinates]. *)
Record RawComponent := {
  objectid : Z;
  coordinates : list Coord
}.

(** A manual cluster of the clusters file. *)
Record ManualCluster := {
  cl_id : Z;
  cl_type : string;
  cl_component_ids : list Z;
  cl_component_count : Z;
  cl_total_length : Q;
  cl_arrondissement : Z;
  cl_confidence : Q
}.

(** A raw record with the keys [load_data] adds to it. *)
Record Component := {
  raw : RawComponent;
  geometry : list Coord;
  point_count : nat;
  length_m : Q;
  envelope_length_m : Q;
  envelope_width_m : Q;
  aspect_ratio : Q
}.

(** The value of [id_to_cluster]. *)
Record ClusterInfo := {
  cluster_id : Z;
  component_count : Z;
  arrondissement : Z;
  total_length : Q;
  confidence : Q
}.

(** A row of [bench_components]: the five joined columns are all set or all
    [None], so they are kept together. *)
Record BenchRow := {
  comp : Component;
  info : option ClusterInfo
}.

Definition row_objectid (r : BenchRow) : Z := objectid (raw (comp r)).

(** ** Clusters of type benches *)

Definition bench_clusters (manual_clusters : list ManualCluster) : list ManualCluster :=
  filter (λ c, cl_type c = "benches") manual_clusters.

(** [ids.update(cluster['component_ids'])] over the bench clusters. *)
Definition bench_ids (manual_clusters : list ManualCluster) : gset Z :=
  foldl (λ ids cluster, ids ∪ list_to_set (cl_component_ids cluster)) ∅
        (bench_clusters manual_clusters).

Definition multi_component_clusters (manual_clusters : list ManualCluster) : list ManualCluster :=
  filter (λ c, cl_type c = "benches" ∧ (1 < cl_component_count c)%Z) manual_clusters.

(** ** Bounding box *)

(** shapely: [geom.bounds] is [(minx, miny, maxx, maxy)]. *)
Definition bounds (geom : list Coord) : Q * Q * Q * Q :=
  match geom with
  | [] => (0, 0, 0, 0)
  | p :: ps =>
      (foldl Qmin (fst p) (map fst ps), foldl Qmin (snd p) (map snd ps),
       foldl Qmax (fst p) (map fst ps), foldl Qmax (snd p) (map snd ps))
  end.

(** shapely: a line string of one point is refused with a geometry error.
    The input constraint asks for two points at least.  For the empty list
    shapely builds an empty line, whose bounds are not numbers: that case is
    outside the rational model, which refuses it like the one-point list.
    What is proved about errors is proved for records with a non-empty
    coordinate list. *)
Definition LineString (coords : list Coord) : result (list Coord) :=
  if decide (length coords < 2)%nat then Raise GeometryError else Ok coords.

(** ** Derived records *)

(** An entry of [spatial_stats]. *)
Record SpatialStat := {
  sp_cluster_id : Z;
  sp_component_count : Z;
  min_distance : Q;
  max_distance : Q;
  mean_distance : Q;
  sp_arrondissement : Z
}.

(** An entry of [canonical_stats]. *)
Record CanonicalStats := {
  count : nat;
  envelope_length_mean : Q;
  envelope_length_std : Q;
  envelope_width_mean : Q;
  envelope_width_std : Q;
  aspect_ratio_mean : Q;
  aspect_ratio_std : Q;
  total_length_mean : Q;
  total_length_std : Q;
  length_range : Q * Q;
  width_range : Q * Q;
  aspect_ratio_range : Q * Q
}.

(** An entry of [geometric_patterns]. *)
Record Pattern := {
  pt_cluster_id : Z;
  point_count_pattern : list nat;
  envelope_lengths : list Q;
  envelope_widths : list Q;
  aspect_ratios : list Q;
  min_distance_m : Q;
  max_distance_m : Q;
  mean_distance_m : Q;
  total_cluster_length : Q;
  pt_arrondissement : Z
}.

(** A rule of [rules['single_component_benches']]. *)
Record SingleRule := {
  sr_point_count : nat;
  envelope_length_canonical : Q;
  envelope_width_canonical : Q;
  envelope_length_tolerance_2pct : Q;
  envelope_width_tolerance_2pct : Q;
  aspect_ratio_min : Q;
  aspect_ratio_max : Q;
  total_length_min : Q;
  total_length_max : Q;
  sr_confidence : Q;
  sr_sample_count : nat
}.

(** A rule of [rules['multi_component_clustering']].  The list made of a
    set of tuples is kept as the set. *)
Record ClusteringRule := {
  cr_component_count : Z;
  max_distance_mean : Q;
  max_distance_std : Q;
  suggested_eps_meters : Q;
  typical_point_patterns : gset (list nat);
  cr_confidence : Q;
  cr_sample_count : nat
}.

Record RectangleFrameValidation := {
  min_components : nat;
  rf_parallel_tolerance_deg : Q;
  orthogonal_tolerance_deg : Q;
  rf_length_similarity_tolerance_ratio : Q
}.

Record BackrestValidation := {
  straightness_min : Q;
  parallel_angle_tolerance_deg : Q;
  offset_min_meters : Q;
  offset_max_meters : Q;
  br_length_similarity_tolerance_ratio : Q
}.

Record ConfidenceScoring := {
  single_component_envelope_canonical : Q;
  single_component_length_fallback : Q;
  two_component_frame_backrest : Q;
  rectangle_validation_4_component : Q;
  rect_with_backrest_5_component : Q;
  rect_with_2_backrests_6_component : Q
}.

(** The rule dictionaries are keyed by the number their key string
    ([f'{point_count}_point'], [f'{comp_count}_component']) is made of. *)
Record Rules := {
  single_component_benches : gmap nat SingleRule;
  multi_component_clustering : gmap Z ClusteringRule;
  rectangle_frame_validation : RectangleFrameValidation;
  backrest_validation : BackrestValidation;
  confidence_scoring : ConfidenceScoring
}.

(** The detection-results file: a list of per-district objects, each with an
    optional [benches] list of benches with an optional [components] list. *)
Record DetectedBench := {
  components : option (list Z)
}.

Record ArrData := {
  benches : option (list DetectedBench)
}.

(** The files on disk: a path is mapped to the parsed content of the file
    that exists there. *)
Definition FileSystem : Type := string → option (list ArrData).

(** The two shapes of the validation result. *)
Record Baseline := {
  bl_manual_clusters : nat;
  bl_manual_components : nat;
  component_count_distribution : gmap Z nat;
  arrondissement_distribution : gmap Z nat
}.

Record Metrics := {
  mt_manual_clusters : nat;
  mt_manual_components : nat;
  detected_benches : nat;
  detected_components : nat;
  true_positives : nat;
  false_negatives : nat;
  potential_false_positives : nat;
  recall : Q;
  precision : Q
}.

Inductive Validation :=
  | ValidationBaseline (b : Baseline)
  | ValidationMetrics (m : Metrics).

Record Summary := {
  total_bench_components : nat;
  unique_clusters : nat;
  sm_component_count_distribution : gmap Z nat
}.

Record Results := {
  pattern_analysis : gmap (Z * nat) nat;
  spatial_analysis : list SpatialStat;
  canonical_dimensions : gmap nat CanonicalStats;
  validation_patterns : Validation;
  detection_rules : Rules;
  summary : Summary
}.

(** [d[k] = d.get(k, 0) + 1] *)
Definition count_up `{Countable K} (d : gmap K nat) (k : K) : gmap K nat :=
  <[k := (default 0 (d !! k) + 1)%nat]> d.

Section Model.

Context (sqrt : Q → Q).

(** ** Geometry: shapely and scipy *)

Definition dist (p q : Coord) : Q :=
  sqrt ((fst p - fst q) * (fst p - fst q) + (snd p - snd q) * (snd p - snd q)).

(** [geom.length]: the sum of the segment lengths. *)
Fixpoint line_length (geom : list Coord) : Q :=
  match geom with
  | p :: (q :: _) as tl => dist p q + line_length tl
  | _ => 0
  end.

(** Sums of the segment midpoints weighted by segment length. *)
Fixpoint weighted_midpoints (geom : list Coord) : Q * Q :=
  match geom with
  | p :: (q :: _) as tl =>
      let '(sx, sy) := weighted_midpoints tl in
      (dist p q * ((fst p + fst q) / 2) + sx, dist p q * ((snd p + snd q) / 2) + sy)
  | _ => (0, 0)
  end.

(** [geom.centroid]: the length-weighted mean of the segment midpoints; a line
    of no length has its first point as centroid. *)
Definition centroid (geom : list Coord) : Coord :=
  let len := line_length geom in
  if Qeq_bool len 0 then hd (0, 0) geom
  else let '(sx, sy) := weighted_midpoints geom in (sx / len, sy / len).

(** scipy: [pdist] gives the distances of all pairs [i < j], row by row. *)
Fixpoint pdist (coords : list Coord) : list Q :=
  match coords with
  | [] => []
  | p :: tl => map (dist p) tl ++ pdist tl
  end.

Definition np_std (l : list Q) : Q :=
  let m := np_mean l in
  sqrt (np_mean (map (λ x, (x - m) * (x - m)) l)).

(** ** load_data *)

(** The body of the filter loop: the geometric keys added to a retained
    record. *)
Definition augment (component : RawComponent) : result Component :=
  let coords := coordinates component in
  geom ← LineString coords;
  let '(minx, miny, maxx, maxy) := bounds geom in
  let length := Qmax (maxx - minx) (maxy - miny) * 111000 in
  let width := Qmin (maxx - minx) (maxy - miny) * 111000 in
  ratio ← (if Qgtb length 0 then py_div width length else Ok 0);
  Ok {| raw := component;
        geometry := geom;
        point_count := Datatypes.length coords;
        length_m := line_length geom * 111000;
        envelope_length_m := length;
        envelope_width_m := width;
        aspect_ratio := ratio |}.

(** [for component in raw_list: if component['objectid'] in all_bench_ids: ...] *)
Fixpoint filter_components (all_bench_ids : gset Z) (raw_list : list RawComponent)
  : result (list Component) :=
  match raw_list with
  | [] => Ok []
  | component :: rest =>
      if decide (objectid component ∈ all_bench_ids) then
        c ← augment component;
        raw_components ← filter_components all_bench_ids rest;
        Ok (c :: raw_components)
      else filter_components all_bench_ids rest
  end.

Definition load_data (manual_clusters : list ManualCluster) (raw_list : list RawComponent)
  : result (list Component) :=
  filter_components (bench_ids manual_clusters) raw_list.

(** ** extract_bench_components *)

Definition cluster_info (cluster : ManualCluster) : ClusterInfo :=
  {| cluster_id := cl_id cluster;
     component_count := cl_component_count cluster;
     arrondissement := cl_arrondissement cluster;
     total_length := cl_total_length cluster;
     confidence := cl_confidence cluster |}.

(** A later cluster overwrites the entry an earlier one made for an id. *)
Definition id_to_cluster (manual_clusters : list ManualCluster) : gmap Z ClusterInfo :=
  foldl (λ d cluster,
           foldl (λ d comp_id, <[comp_id := cluster_info cluster]> d) d
                 (cl_component_ids cluster))
        ∅ (bench_clusters manual_clusters).

(** The frame made of an empty list has no columns: reading its [objectid]
    column is a [KeyError]. *)
Definition extract_bench_components (manual_clusters : list ManualCluster)
    (raw_data : list Component) : result (list BenchRow) :=
  match raw_data with
  | [] => Raise KeyError
  | _ =>
      Ok (map (λ c, {| comp := c;
                       info := id_to_cluster manual_clusters !! objectid (raw c) |})
              raw_data)
  end.

(** ** analyze_component_patterns *)

(** [groupby(['component_count', 'point_count']).size()]: rows without a
    key are left out of the groups. *)
Definition analyze_component_patterns (bench_components : list BenchRow)
  : gmap (Z * nat) nat :=
  foldl (λ d r,
           match info r with
           | Some i => count_up d (component_count i, point_count (comp r))
           | None => d
           end)
        ∅ bench_components.

(** ** analyze_spatial_relationships *)

(** [bench_components[bench_components['objectid'].isin(comp_ids)]] *)
Definition isin (bench_components : list BenchRow) (comp_ids : list Z) : list BenchRow :=
  filter (λ r, row_objectid r ∈ comp_ids) bench_components.

Definition centroids (components : list BenchRow) : list Coord :=
  map (λ r, centroid (geometry (comp r))) components.

(** One turn of the loop: [None] where the loop appends nothing. *)
Definition spatial_entry (bench_components : list BenchRow) (cluster : ManualCluster)
  : option SpatialStat :=
  let components := isin bench_components (cl_component_ids cluster) in
  if decide (length components < 2)%nat then None
  else
    let coords := centroids components in
    if decide (2 ≤ length coords)%nat then
      let distances := pdist coords in
      Some {| sp_cluster_id := cl_id cluster;
              sp_component_count := cl_component_count cluster;
              min_distance := np_min distances * 111000;
              max_distance := np_max distances * 111000;
              mean_distance := np_mean distances * 111000;
              sp_arrondissement := cl_arrondissement cluster |}
    else None.

Definition analyze_spatial_relationships (manual_clusters : list ManualCluster)
    (bench_components : list BenchRow) : list SpatialStat :=
  omap (spatial_entry bench_components) (multi_component_clusters manual_clusters).

(** ** calculate_canonical_dimensions *)

Definition single_benches (bench_components : list BenchRow) : list BenchRow :=
  filter (λ r, component_count <$> info r = Some 1%Z) bench_components.

Definition point_count_subset (single : list BenchRow) (pc : nat) : list BenchRow :=
  filter (λ r, point_count (comp r) = pc) single.

Definition canonical_entry (subset : list BenchRow) : CanonicalStats :=
  let lengths := map (λ r, envelope_length_m (comp r)) subset in
  let widths := map (λ r, envelope_width_m (comp r)) subset in
  let aspect_ratios := map (λ r, aspect_ratio (comp r)) subset in
  let total_lengths := map (λ r, length_m (comp r)) subset in
  {| count := length subset;
     envelope_length_mean := np_mean lengths;
     envelope_length_std := np_std lengths;
     envelope_width_mean := np_mean widths;
     envelope_width_std := np_std widths;
     aspect_ratio_mean := np_mean aspect_ratios;
     aspect_ratio_std := np_std aspect_ratios;
     total_length_mean := np_mean total_lengths;
     total_length_std := np_std total_lengths;
     length_range := (np_min lengths, np_max lengths);
     width_range := (np_min widths, np_max widths);
     aspect_ratio_range := (np_min aspect_ratios, np_max aspect_ratios) |}.

(** [sorted(single_benches['point_count'].unique())] *)
Definition observed_point_counts (single : list BenchRow) : list nat :=
  merge_sort (≤)%nat (remove_dups (map (λ r, point_count (comp r)) single)).

Definition calculate_canonical_dimensions (bench_components : list BenchRow)
  : gmap nat CanonicalStats :=
  let single := single_benches bench_components in
  foldl (λ canonical_stats pc,
           <[pc := canonical_entry (point_count_subset single pc)]> canonical_stats)
        ∅ (observed_point_counts single).

(** ** analyze_multi_component_geometry *)

(** The pattern of a cluster: [None] where the loop continues without one
    (no component of the cluster is in the frame). *)
Definition geometry_entry (bench_components : list BenchRow) (cluster : ManualCluster)
  : option Pattern :=
  let components := isin bench_components (cl_component_ids cluster) in
  if decide (length components = 0)%nat then None
  else
    let coords := centroids components in
    let '(min_dist, max_dist, mean_dist) :=
      if decide (2 ≤ length coords)%nat then
        let distances := pdist coords in
        (np_min distances * 111000, np_max distances * 111000,
         np_mean distances * 111000)
      else (0, 0, 0) in
    Some {| pt_cluster_id := cl_id cluster;
            point_count_pattern :=
              merge_sort (≤)%nat (map (λ r, point_count (comp r)) components);
            envelope_lengths := map (λ r, envelope_length_m (comp r)) components;
            envelope_widths := map (λ r, envelope_width_m (comp r)) components;
            aspect_ratios := map (λ r, aspect_ratio (comp r)) components;
            min_distance_m := min_dist;
            max_distance_m := max_dist;
            mean_distance_m := mean_dist;
            total_cluster_length := cl_total_length cluster;
            pt_arrondissement := cl_arrondissement cluster |}.

(** One turn of the loop over the multi-component clusters. *)
Definition geometry_step (bench_components : list BenchRow)
    (geometric_patterns : gmap Z (list Pattern)) (cluster : ManualCluster)
  : gmap Z (list Pattern) :=
  let comp_count := cl_component_count cluster in
  let geometric_patterns :=
    match geometric_patterns !! comp_count with
    | None => <[comp_count := []]> geometric_patterns
    | Some _ => geometric_patterns
    end in
  match geometry_entry bench_components cluster with
  | None => geometric_patterns
  | Some pattern =>
      <[comp_count := default [] (geometric_patterns !! comp_count) ++ [pattern]]>
        geometric_patterns
  end.

Definition analyze_multi_component_geometry (manual_clusters : list ManualCluster)
    (bench_components : list BenchRow) : gmap Z (list Pattern) :=
  foldl (geometry_step bench_components) ∅ (multi_component_clusters manual_clusters).

(** ** generate_detection_rules *)

Definition single_rule (point_count : nat) (stats : CanonicalStats) : SingleRule :=
  {| sr_point_count := point_count;
     envelope_length_canonical := envelope_length_mean stats;
     envelope_width_canonical := envelope_width_mean stats;
     envelope_length_tolerance_2pct := envelope_length_mean stats * 0.02;
     envelope_width_tolerance_2pct := envelope_width_mean stats * 0.02;
     aspect_ratio_min := fst (aspect_ratio_range stats);
     aspect_ratio_max := snd (aspect_ratio_range stats);
     total_length_min := total_length_mean stats - 2 * total_length_std stats;
     total_length_max := total_length_mean stats + 2 * total_length_std stats;
     sr_confidence := if decide (point_count = 7%nat) then 0.98 else 0.95;
     sr_sample_count := count stats |}.

Definition clustering_rule (comp_count : Z) (patterns : list Pattern)
  : option ClusteringRule :=
  if decide (0 < length patterns)%nat then
    let max_dists := map max_distance_m patterns in
    Some {| cr_component_count := comp_count;
            max_distance_mean := np_mean max_dists;
            max_distance_std := np_std max_dists;
            suggested_eps_meters := np_mean max_dists + np_std max_dists;
            typical_point_patterns := list_to_set (map point_count_pattern patterns);
            cr_confidence := if decide (comp_count = 2%Z) then 0.90 else 0.85;
            cr_sample_count := length patterns |}
  else None.

Definition generate_detection_rules (manual_clusters : list ManualCluster)
    (bench_components : list BenchRow) : Rules :=
  let canonical_dims := calculate_canonical_dimensions bench_components in
  let geometric_patterns :=
    analyze_multi_component_geometry manual_clusters bench_components in
  {| single_component_benches :=
       map_imap (λ pc stats, Some (single_rule pc stats)) canonical_dims;
     multi_component_clustering := map_imap clustering_rule geometric_patterns;
     rectangle_frame_validation :=
       {| min_components := 4;
          rf_parallel_tolerance_deg := 4;
          orthogonal_tolerance_deg := 5;
          rf_length_similarity_tolerance_ratio := 0.02 |};
     backrest_validation :=
       {| straightness_min := 0.98;
          parallel_angle_tolerance_deg := 4;
          offset_min_meters := 0.25;
          offset_max_meters := 0.40;
          br_length_similarity_tolerance_ratio := 0.02 |};
     confidence_scoring :=
       {| single_component_envelope_canonical := 0.98;
          single_component_length_fallback := 0.90;
          two_component_frame_backrest := 0.96;
          rectangle_validation_4_component := 0.90;
          rect_with_backrest_5_component := 0.85;
          rect_with_2_backrests_6_component := 0.90 |} |}.

(** ** The groups of the rule derivation *)

(** The clusters that are the examples of a component-count group: the
    multi-component bench clusters of that count with a component in the
    frame. *)
Definition group_examples (manual_clusters : list ManualCluster)
    (bench_components : list BenchRow) (comp_count : Z) : list ManualCluster :=
  filter (λ c, cl_component_count c = comp_count
               ∧ length (isin bench_components (cl_component_ids c)) ≠ 0%nat)
         (multi_component_clusters manual_clusters).

(** The patterns of the clusters of a component count, in cluster order. *)
Definition group_patterns (bench_components : list BenchRow)
    (clusters : list ManualCluster) (comp_count : Z) : list Pattern :=
  omap (geometry_entry bench_components)
       (filter (λ c, cl_component_count c = comp_count) clusters).

(** The largest distance between the centroids of two components of a
    cluster, in meters; 0 where the cluster has no two components in the
    frame. *)
Definition cluster_max_distance (bench_components : list BenchRow)
    (cluster : ManualCluster) : Q :=
  let coords := centroids (isin bench_components (cl_component_ids cluster)) in
  if decide (2 ≤ length coords)%nat then np_max (pdist coords) * 111000 else 0.

End Model.

(** ** validate_against_current_detection *)

(** [detection_results_path and Path(detection_results_path).exists()]: the
    content of the file when the path is given, not empty, and names a file
    on disk. *)
Definition detection_file (fs : FileSystem) (detection_results_path : option string)
  : option (list ArrData) :=
  match detection_results_path with
  | None => None
  | Some path => if decide (path = "") then None else fs path
  end.

(** The loop over the detection data: the detected ids and the number of
    detected benches. *)
Definition detected_step (acc : gset Z * nat) (arr_data : ArrData) : gset Z * nat :=
  match benches arr_data with
  | None => acc
  | Some bs =>
      foldl (λ '(detected_component_ids, total_detected_benches) bench,
               (match components bench with
                | Some ids => detected_component_ids ∪ list_to_set ids
                | None => detected_component_ids
                end,
                (total_detected_benches + 1)%nat))
            acc bs
  end.

Definition validate_against_current_detection (fs : FileSystem)
    (manual_clusters : list ManualCluster) (detection_results_path : option string)
  : result Validation :=
  let bench_clusters := bench_clusters manual_clusters in
  let manual_component_ids := bench_ids manual_clusters in
  let comp_count_dist :=
    foldl (λ d cluster, count_up d (cl_component_count cluster)) ∅ bench_clusters in
  let arr_dist :=
    foldl (λ d cluster, count_up d (cl_arrondissement cluster)) ∅ bench_clusters in
  match detection_file fs detection_results_path with
  | Some detection_data =>
      let '(detected_component_ids, total_detected_benches) :=
        foldl detected_step (∅, 0%nat) detection_data in
      let overlap := manual_component_ids ∩ detected_component_ids in
      let manual_only := manual_component_ids ∖ detected_component_ids in
      let detected_only := detected_component_ids ∖ manual_component_ids in
      recall ← (if decide (0 < size manual_component_ids)%nat
                then py_div (of_nat (size overlap)) (of_nat (size manual_component_ids))
                else Ok 0);
      precision ← (if decide (0 < size detected_component_ids)%nat
                   then py_div (of_nat (size overlap)) (of_nat (size detected_component_ids))
                   else Ok 0);
      Ok (ValidationMetrics
            {| mt_manual_clusters := length bench_clusters;
               mt_manual_components := size manual_component_ids;
               detected_benches := total_detected_benches;
               detected_components := size detected_component_ids;
               true_positives := size overlap;
               false_negatives := size manual_only;
               potential_false_positives := size detected_only;
               recall := recall;
               precision := precision |})
  | None =>
      Ok (ValidationBaseline
            {| bl_manual_clusters := length bench_clusters;
               bl_manual_components := size manual_component_ids;
               component_count_distribution := comp_count_dist;
               arrondissement_distribution := arr_dist |})
  end.

(** ** run_full_analysis *)

(** The two input files are given by their parsed content; [fs] is the rest
    of the disk. *)
Definition run_full_analysis (sqrt : Q → Q) (fs : FileSystem)
    (manual_clusters : list ManualCluster) (raw_list : list RawComponent)
  : result Results :=
  raw_data ← load_data sqrt manual_clusters raw_list;
  bench_components ← extract_bench_components manual_clusters raw_data;
  let pattern_analysis := analyze_component_patterns bench_components in
  let spatial_analysis :=
    analyze_spatial_relationships sqrt manual_clusters bench_components in
  let canonical_dims := calculate_canonical_dimensions sqrt bench_components in
  validation_patterns ← validate_against_current_detection fs manual_clusters None;
  let detection_rules := generate_detection_rules sqrt manual_clusters bench_components in
  Ok {| pattern_analysis := pattern_analysis;
        spatial_analysis := spatial_analysis;
        canonical_dimensions := canonical_dims;
        validation_patterns := validation_patterns;
        detection_rules := detection_rules;
        summary :=
          {| total_bench_components := length bench_components;
             unique_clusters :=
               size (list_to_set (map (λ r, cluster_id <$> info r) bench_components)
                     : gset (option Z));
             sm_component_count_distribution :=
               foldl (λ d r,
                        match info r with
                        | Some i => count_up d (component_count i)
                        | None => d
                        end)
                     ∅ bench_components |} |}.

(** The sum of the counts of a counter dictionary. *)
Definition counter_total `{Countable K} (d : gmap K nat) : nat :=
  map_fold (λ _ n total, (n + total)%nat) 0%nat d.

(** ** compare_with_detection_results *)

(** The bench clusters by component count.  The detection-results path only
    decides what is printed. *)
Definition compare_with_detection_results (fs : FileSystem)
    (manual_clusters : list ManualCluster) (detection_results_path : option string)
  : gmap Z (list ManualCluster) :=
  foldl (λ by_component_count cluster,
           let cc := cl_component_count cluster in
           let by_component_count :=
             match by_component_count !! cc with
             | None => <[cc := []]> by_component_count
             | Some _ => by_component_count
             end in
           <[cc := default [] (by_component_count !! cc) ++ [cluster]]>
             by_component_count)
        ∅ (bench_clusters manual_clusters).

(** ** Sample input

    Five bench clusters and one cluster of another type over seven raw
    records: id 77 is referenced by a bench cluster and absent from the raw
    data, record 6 is referenced by no bench cluster, record 5 is a line of
    no extent. *)

Definition cluster (i : Z) (ty : string) (ids : list Z) (n : Z) : ManualCluster :=
  {| cl_id := i; cl_type := ty; cl_component_ids := ids; cl_component_count := n;
     cl_total_length := 2; cl_arrondissement := 12; cl_confidence := 1 |}.

Definition sample_clusters : list ManualCluster :=
  [cluster 1 "benches" [1%Z] 1; cluster 2 "benches" [2%Z] 1;
   cluster 3 "benches" [3%Z; 4%Z] 2; cluster 4 "benches" [5%Z; 77%Z] 2;
   cluster 5 "trash" [6%Z] 1; cluster 6 "benches" [7%Z] 1].

Definition sample_raw : list RawComponent :=
  [{| objectid := 7; coordinates := [(0, 0); (4, 3); (8, 0)] |};
   {| objectid := 1; coordinates := [(0, 0); (1, 0)] |};
   {| objectid := 2; coordinates := [(0, 0); (3, 0)] |};
   {| objectid := 3; coordinates := [(0, 0); (0, 4)] |};
   {| objectid := 4; coordinates := [(3, 0); (3, 4)] |};
   {| objectid := 5; coordinates := [(1, 1); (1, 1)] |};
   {| objectid := 6; coordinates := [(0, 0); (1, 1)] |}].

(** The manual ids 1, 2, 3 of the recall and precision example. *)
Definition recall_clusters : list ManualCluster :=
  [cluster 1 "benches" [1%Z; 2%Z; 3%Z] 3].

(** A disk on which every path names a detection-results file, with the
    detected ids 2, 3, 4. *)
Definition sample_detection : list ArrData :=
  [{| benches := Some [{| components := Some [2%Z; 3%Z; 4%Z] |}] |}].

Definition sample_disk : FileSystem := λ _, Some sample_detection.

Definition sample_detected : gset Z :=
  fst (foldl detected_step (∅, 0%nat) sample_detection).

(** A disk whose detection-results file lists no bench. *)
Definition empty_detection_disk : FileSystem := λ _, Some [{| benches := None |}].

(** The value of [load_data] and of [extract_bench_components] on the
    sample input ([sample_loaded_eq], [sample_rows_eq]). *)
Definition sample_loaded : list Component :=
  Eval vm_compute in
    match load_data Qsqrt sample_clusters sample_raw with
    | Ok raw_data => raw_data
    | Raise _ => []
    end.

Definition sample_rows : list BenchRow :=
  Eval vm_compute in
    match extract_bench_components sample_clusters sample_loaded with
    | Ok bench_components => bench_components
    | Raise _ => []
    end.

(** The single-component benches of two points of the sample. *)
Definition sample_group : list BenchRow :=
  point_count_subset (single_benches sample_rows) 2.

(** A bench cluster whose only id no raw record has. *)
Definition absent_clusters : list ManualCluster := [cluster 1 "benches" [77%Z] 1].

Definition absent_raw : list RawComponent :=
  [{| objectid := 6; coordinates := [(0, 0); (1, 1)] |}].

(** Raw records of which one, referred to by a bench cluster, has a single
    point. *)
Definition one_point_raw : list RawComponent :=
  [{| objectid := 1; coordinates := [(0, 0); (1, 0)] |};
   {| objectid := 2; coordinates := [(0, 0)] |}].

(** * Properties *)

Lemma sample_loaded_eq : load_data Qsqrt sample_clusters sample_raw = Ok sample_loaded.
Proof. by vm_compute. Qed.

Lemma sample_rows_eq :
  extract_bench_components sample_clusters sample_loaded = Ok sample_rows.
Proof. by vm_compute. Qed.

(** ** Numbers *)

Lemma Qgtb_true (x y : Q) : Qgtb x y = true ↔ y < x.
Proof.
  unfold Qgtb. rewrite negb_true_iff, <- not_true_iff_false, Qle_bool_iff.
  split; [apply Qnot_le_lt | apply Qlt_not_le].
Qed.

(** A division whose divisor is positive does not raise. *)
Lemma py_div_pos (x y : Q) : 0 < y → py_div x y = Ok (x / y).
Proof.
  intros Hy. unfold py_div.
  destruct (Qeq_bool y 0) eqn:E; [|done].
  apply Qeq_bool_eq in E. rewrite E in Hy. by apply Qlt_irrefl in Hy.
Qed.

Lemma of_nat_pos (n : nat) : (0 < n)%nat → 0 < of_nat n.
Proof.
  intros Hn. unfold of_nat, Qlt. simpl. lia.
Qed.

Lemma foldl_Qmin_le (x : Q) (l : list Q) : foldl Qmin x l <= x.
Proof.
  revert x. induction l as [|y l IH]; intros x; simpl; [apply Qle_refl|].
  eapply Qle_trans; [apply IH | apply Q.le_min_l].
Qed.

Lemma foldl_Qmax_ge (x : Q) (l : list Q) : x <= foldl Qmax x l.
Proof.
  revert x. induction l as [|y l IH]; intros x; simpl; [apply Qle_refl|].
  eapply Qle_trans; [apply Q.le_max_l | apply IH].
Qed.

(** The box is not inverted: each extent is non-negative. *)
Lemma bounds_extent (geom : list Coord) (minx miny maxx maxy : Q) :
  bounds geom = (minx, miny, maxx, maxy) → 0 <= maxx - minx ∧ 0 <= maxy - miny.
Proof.
  destruct geom as [|p ps]; simpl; intros [= <- <- <- <-].
  - split; by vm_compute.
  - pose proof (foldl_Qmin_le (fst p) (map fst ps)).
    pose proof (foldl_Qmax_ge (fst p) (map fst ps)).
    pose proof (foldl_Qmin_le (snd p) (map snd ps)).
    pose proof (foldl_Qmax_ge (snd p) (map snd ps)).
    split; lra.
Qed.

(** ** Bench ids *)

Lemma elem_of_foldl_update (x : Z) (ids : gset Z) (clusters : list ManualCluster) :
  x ∈ foldl (λ ids cluster, ids ∪ list_to_set (cl_component_ids cluster)) ids clusters
  ↔ x ∈ ids ∨ ∃ c, c ∈ clusters ∧ x ∈ cl_component_ids c.
Proof.
  revert ids. induction clusters as [|c cs IH]; intros ids; simpl.
  - split; [by left | intros [?|(c & Hc & _)]; [done | by apply elem_of_nil in Hc]].
  - rewrite IH, elem_of_union, elem_of_list_to_set. split.
    + intros [[?|?]|(c' & ? & ?)]; [by left | right; exists c | right; exists c'];
        split; try done; [left | by right].
    + intros [?|(c' & [->|?]%elem_of_cons & ?)];
        [by left; left | by left; right | right; by exists c'].
Qed.

Lemma elem_of_bench_ids (x : Z) (manual_clusters : list ManualCluster) :
  x ∈ bench_ids manual_clusters
  ↔ ∃ c, c ∈ manual_clusters ∧ cl_type c = "benches" ∧ x ∈ cl_component_ids c.
Proof.
  unfold bench_ids, bench_clusters. rewrite elem_of_foldl_update. split.
  - intros [?|(c & [? ?]%list_elem_of_filter & ?)]; [set_solver | by exists c].
  - intros (c & ? & ? & ?). right. exists c. by rewrite list_elem_of_filter.
Qed.

(** ** load_data *)

Section Loading.

Context (sqrt : Q → Q).

(** What the loop body returns for a record with at least two points: the
    guard keeps the division from raising. *)
Lemma augment_ok (component : RawComponent) (minx miny maxx maxy : Q) :
  (2 ≤ length (coordinates component))%nat →
  bounds (coordinates component) = (minx, miny, maxx, maxy) →
  let length := Qmax (maxx - minx) (maxy - miny) * 111000 in
  let width := Qmin (maxx - minx) (maxy - miny) * 111000 in
  augment sqrt component =
    Ok {| raw := component;
          geometry := coordinates component;
          point_count := Datatypes.length (coordinates component);
          length_m := line_length sqrt (coordinates component) * 111000;
          envelope_length_m := length;
          envelope_width_m := width;
          aspect_ratio := if Qgtb length 0 then width / length else 0 |}.
Proof.
  intros Hlen Hb. unfold augment, LineString.
  destruct (decide _) as [?|_]; [lia|]. simpl. rewrite Hb. simpl.
  destruct (Qgtb _ 0) eqn:E; [|done].
  apply Qgtb_true in E. by rewrite (py_div_pos _ _ E).
Qed.

Lemma augment_inv (component : RawComponent) (c : Component) :
  augment sqrt component = Ok c →
  (2 ≤ length (coordinates component))%nat ∧ raw c = component.
Proof.
  unfold augment, LineString.
  destruct (decide _) as [?|Hlen]; [done|]. simpl.
  destruct (bounds _) as [[[minx miny] maxx] maxy].
  destruct (if Qgtb _ 0 then _ else _); simpl; [|done].
  intros [= <-]. split; [lia | done].
Qed.

Lemma filter_components_ok (ids : gset Z) (raw_list : list RawComponent) :
  (∀ r, r ∈ raw_list → objectid r ∈ ids → (2 ≤ length (coordinates r))%nat) →
  ∃ raw_data, filter_components sqrt ids raw_list = Ok raw_data
    ∧ map raw raw_data = filter (λ r, objectid r ∈ ids) raw_list.
Proof.
  induction raw_list as [|r rest IH]; intros Hwf; simpl.
  - by exists [].
  - destruct IH as (data & Hdata & Hraw).
    { intros r' ? ?. apply Hwf; [by right | done]. }
    rewrite filter_cons. destruct (decide (objectid r ∈ ids)) as [Hin|Hout].
    + destruct (bounds (coordinates r)) as [[[minx miny] maxx] maxy] eqn:Hb.
      rewrite (augment_ok r minx miny maxx maxy); [|by apply Hwf; [left|]|done].
      simpl. rewrite Hdata. simpl. eexists. split; [done|]. simpl. by rewrite Hraw.
    + by exists data.
Qed.

Lemma filter_components_inv (ids : gset Z) (raw_list : list RawComponent)
    (raw_data : list Component) (c : Component) :
  filter_components sqrt ids raw_list = Ok raw_data → c ∈ raw_data →
  ∃ r, r ∈ raw_list ∧ objectid r ∈ ids ∧ augment sqrt r = Ok c.
Proof.
  revert raw_data. induction raw_list as [|r rest IH]; intros raw_data; simpl.
  - intros [= <-] Hc. by apply elem_of_nil in Hc.
  - destruct (decide (objectid r ∈ ids)) as [Hin|Hout].
    + destruct (augment sqrt r) as [c0|] eqn:Ha; simpl; [|done].
      destruct (filter_components sqrt ids rest) as [data|]; simpl; [|done].
      intros [= <-] [->|Hc]%elem_of_cons.
      * exists r. split; [by left | done].
      * destruct (IH data eq_refl Hc) as (r' & ? & ? & ?).
        exists r'. split; [by right | done].
    + intros Hd Hc. destruct (IH raw_data Hd Hc) as (r' & ? & ? & ?).
      exists r'. split; [by right | done].
Qed.

End Loading.

(** ** The join *)

Lemma dom_foldl_insert (v : ClusterInfo) (ids : list Z) (d : gmap Z ClusterInfo) :
  dom (foldl (λ d comp_id, <[comp_id := v]> d) d ids) = dom d ∪ list_to_set ids.
Proof.
  revert d. induction ids as [|x ids IH]; intros d; cbn [foldl].
  - by rewrite list_to_set_nil, (right_id_L ∅ (∪)).
  - rewrite IH, dom_insert_L, list_to_set_cons.
    apply set_eq. intros y. rewrite !elem_of_union. tauto.
Qed.

(** The ids with cluster information are the bench ids. *)
Lemma dom_id_to_cluster (manual_clusters : list ManualCluster) :
  dom (id_to_cluster manual_clusters) = bench_ids manual_clusters.
Proof.
  unfold id_to_cluster, bench_ids.
  generalize (bench_clusters manual_clusters). intros clusters.
  assert (dom (∅ : gmap Z ClusterInfo) = (∅ : gset Z)) as Hdom by apply dom_empty_L.
  revert Hdom. generalize (∅ : gmap Z ClusterInfo), (∅ : gset Z).
  induction clusters as [|c cs IH]; intros d ids Hdom; cbn [foldl]; [done|].
  apply IH. by rewrite dom_foldl_insert, Hdom.
Qed.

(** The join of a frame with at least one row: the rows are the retained
    components in order, and a component whose id a bench cluster refers to
    has its cluster information. *)
Lemma extract_bench_components_ok (manual_clusters : list ManualCluster)
    (raw_data : list Component) :
  raw_data ≠ [] →
  ∃ bench_components,
    extract_bench_components manual_clusters raw_data = Ok bench_components
    ∧ map comp bench_components = raw_data
    ∧ ∀ r, r ∈ bench_components → row_objectid r ∈ bench_ids manual_clusters →
           is_Some (info r).
Proof.
  intros Hne. destruct raw_data as [|c0 data]; [done|].
  eexists. split; [reflexivity|]. split.
  - rewrite map_map. simpl. f_equal. by rewrite map_id.
  - intros r (c & -> & _)%list_elem_of_fmap Hid. simpl.
    apply elem_of_dom. by rewrite dom_id_to_cluster.
Qed.

(** ** The retained records *)

(** Loading: the retained components are exactly the raw records whose
    objectid is among the component ids of some cluster of type benches, in
    the order of the raw list; an id a bench cluster refers to that no raw
    record has is left out, and loading does not raise. *)
Lemma load_data_retains_bench_records (sqrt : Q → Q)
    (manual_clusters : list ManualCluster) (raw_list : list RawComponent) :
  Forall (λ r, objectid r ∈ bench_ids manual_clusters →
               (2 ≤ length (coordinates r))%nat) raw_list →
  ∃ raw_data,
    load_data sqrt manual_clusters raw_list = Ok raw_data
    ∧ map raw raw_data = filter (λ r, objectid r ∈ bench_ids manual_clusters) raw_list
    ∧ (∀ r, r ∈ map raw raw_data ↔
            r ∈ raw_list ∧ ∃ c, c ∈ manual_clusters ∧ cl_type c = "benches"
                                ∧ objectid r ∈ cl_component_ids c)
    ∧ (∀ x, x ∈ bench_ids manual_clusters → x ∉ map objectid raw_list →
            x ∉ map (λ c, objectid (raw c)) raw_data).
Proof.
  intros Hwf. rewrite Forall_forall in Hwf.
  destruct (filter_components_ok sqrt (bench_ids manual_clusters) raw_list)
    as (raw_data & Hload & Hraw); [done|].
  exists raw_data. split; [done|]. split; [done|]. split.
  - intros r. rewrite Hraw, list_elem_of_filter, elem_of_bench_ids. tauto.
  - intros x _ Hx Hx'. apply Hx.
    rewrite <- (map_map raw objectid), Hraw in Hx'.
    apply list_elem_of_fmap in Hx' as (r & -> & [_ ?]%list_elem_of_filter).
    by apply list_elem_of_fmap_2.
Qed.

(** C2, as the code has it: loading retains exactly the raw records whose
    objectid is among the component ids of some cluster of type benches and
    leaves out, without an error, an id that no raw record has.  The join
    that follows keeps these components, each with its cluster information,
    as long as one record at least is retained; where none is retained it
    raises a key error. *)
Theorem load_and_join_retain_bench_records (sqrt : Q → Q)
    (manual_clusters : list ManualCluster) (raw_list : list RawComponent) :
  Forall (λ r, objectid r ∈ bench_ids manual_clusters →
               (2 ≤ length (coordinates r))%nat) raw_list →
  ∃ raw_data,
    load_data sqrt manual_clusters raw_list = Ok raw_data
    ∧ map raw raw_data = filter (λ r, objectid r ∈ bench_ids manual_clusters) raw_list
    ∧ (∀ r, r ∈ map raw raw_data ↔
            r ∈ raw_list ∧ ∃ c, c ∈ manual_clusters ∧ cl_type c = "benches"
                                ∧ objectid r ∈ cl_component_ids c)
    ∧ (∀ x, x ∈ bench_ids manual_clusters → x ∉ map objectid raw_list →
            x ∉ map (λ c, objectid (raw c)) raw_data)
    ∧ match filter (λ r, objectid r ∈ bench_ids manual_clusters) raw_list with
      | [] => extract_bench_components manual_clusters raw_data = Raise KeyError
      | _ =>
          ∃ bench_components,
            extract_bench_components manual_clusters raw_data = Ok bench_components
            ∧ map comp bench_components = raw_data
            ∧ ∀ r, r ∈ bench_components → is_Some (info r)
      end.
Proof.
  intros Hwf.
  destruct (load_data_retains_bench_records sqrt manual_clusters raw_list Hwf)
    as (raw_data & Hload & Hraw & Hmem & Habsent).
  exists raw_data. repeat (split; [done|]).
  destruct (filter _ raw_list) as [|r0 retained] eqn:E.
  - by destruct raw_data.
  - destruct (extract_bench_components_ok manual_clusters raw_data)
      as (rows & Hext & Hcomp & Hinfo); [by destruct raw_data|].
    exists rows. split; [done|]. split; [done|].
    intros r Hr. apply Hinfo; [done|].
    assert (raw (comp r) ∈ map raw raw_data) as Hin.
    { rewrite <- Hcomp, map_map. by apply (list_elem_of_fmap_2 (λ r, raw (comp r))). }
    rewrite Hraw, <- E in Hin.
    apply list_elem_of_filter in Hin as [Hid _]. done.
Qed.

Lemma load_and_join_retain_bench_records_witness :
  ∃ raw_data,
    load_data Qsqrt sample_clusters sample_raw = Ok raw_data
    ∧ map raw raw_data = filter (λ r, objectid r ∈ bench_ids sample_clusters) sample_raw
    ∧ (∀ r, r ∈ map raw raw_data ↔
            r ∈ sample_raw ∧ ∃ c, c ∈ sample_clusters ∧ cl_type c = "benches"
                                  ∧ objectid r ∈ cl_component_ids c)
    ∧ (∀ x, x ∈ bench_ids sample_clusters → x ∉ map objectid sample_raw →
            x ∉ map (λ c, objectid (raw c)) raw_data)
    ∧ match filter (λ r, objectid r ∈ bench_ids sample_clusters) sample_raw with
      | [] => extract_bench_components sample_clusters raw_data = Raise KeyError
      | _ =>
          ∃ bench_components,
            extract_bench_components sample_clusters raw_data = Ok bench_components
            ∧ map comp bench_components = raw_data
            ∧ ∀ r, r ∈ bench_components → is_Some (info r)
      end.
Proof.
  apply (load_and_join_retain_bench_records Qsqrt sample_clusters sample_raw).
  repeat constructor; intros _; simpl; lia.
Defined.

(** C2, as stated, fails: the bench cluster refers to id 77 only, which no
    raw record has.  Loading returns the empty list without an error, but
    the join reads the objectid column of a frame without columns and
    raises a key error, and so does the full analysis. *)
Lemma absent_ids_join_raises :
  77%Z ∈ bench_ids absent_clusters
  ∧ (77%Z ∉ map objectid absent_raw)
  ∧ load_data Qsqrt absent_clusters absent_raw = Ok []
  ∧ extract_bench_components absent_clusters [] = Raise KeyError
  ∧ run_full_analysis Qsqrt sample_disk absent_clusters absent_raw = Raise KeyError.
Proof.
  split; [by vm_compute|]. split.
  - intros [=]%list_elem_of_singleton.
  - by vm_compute.
Qed.

(** ** Aspect ratio *)

(** C5: a component whose bounding box has no extent in either axis has
    envelope length 0 and aspect ratio 0; computing it raises nothing. *)
Theorem aspect_ratio_zero_extent (sqrt : Q → Q) (component : RawComponent)
    (minx miny maxx maxy : Q) :
  (2 ≤ length (coordinates component))%nat →
  bounds (coordinates component) = (minx, miny, maxx, maxy) →
  maxx - minx == 0 → maxy - miny == 0 →
  ∃ c, augment sqrt component = Ok c
       ∧ envelope_length_m c == 0 ∧ aspect_ratio c = 0.
Proof.
  intros Hlen Hb Hx Hy. eexists. split; [by apply augment_ok|]. simpl.
  assert (Qmax (maxx - minx) (maxy - miny) * 111000 == 0) as Hzero.
  { destruct (Q.max_spec (maxx - minx) (maxy - miny)) as [[_ ->]|[_ ->]];
      [rewrite Hy | rewrite Hx]; reflexivity. }
  split; [done|].
  destruct (Qgtb _ 0) eqn:E; [|done].
  apply Qgtb_true in E. rewrite Hzero in E. by apply Qlt_irrefl in E.
Qed.

Lemma aspect_ratio_zero_extent_witness :
  ∃ c, augment Qsqrt {| objectid := 5; coordinates := [(1, 1); (1, 1)] |} = Ok c
       ∧ envelope_length_m c == 0 ∧ aspect_ratio c = 0.
Proof.
  apply (aspect_ratio_zero_extent Qsqrt
           {| objectid := 5; coordinates := [(1, 1); (1, 1)] |} 1 1 1 1).
  - simpl. lia.
  - reflexivity.
  - reflexivity.
  - reflexivity.
Defined.

(** The envelope of a retained component: the width is at most the length
    and the ratio is in the unit interval. *)
Lemma augment_unit_interval (sqrt : Q → Q) (component : RawComponent) (c : Component) :
  augment sqrt component = Ok c →
  0 <= envelope_width_m c ∧ envelope_width_m c <= envelope_length_m c
  ∧ 0 <= aspect_ratio c ∧ aspect_ratio c <= 1.
Proof.
  intros Ha. destruct (augment_inv sqrt _ _ Ha) as [Hlen _].
  destruct (bounds (coordinates component)) as [[[minx miny] maxx] maxy] eqn:Hb.
  rewrite (augment_ok sqrt component minx miny maxx maxy Hlen Hb) in Ha.
  injection Ha as <-. simpl.
  destruct (bounds_extent _ _ _ _ _ Hb) as [Hx Hy].
  set (dx := maxx - minx) in *. set (dy := maxy - miny) in *.
  assert (0 <= Qmin dx dy) as Hmin by (by apply Q.min_glb).
  assert (Qmin dx dy <= Qmax dx dy) as Hle
    by (eapply Qle_trans; [apply Q.le_min_l | apply Q.le_max_l]).
  split; [lra|]. split; [lra|].
  destruct (Qgtb _ 0) eqn:E; [|split; by vm_compute].
  apply Qgtb_true in E. split.
  - apply Qle_shift_div_l; [done | lra].
  - apply Qle_shift_div_r; [done | lra].
Qed.

(** C6: every retained component has an envelope width between 0 and its
    envelope length, and an aspect ratio in the closed interval [0, 1]. *)
Theorem aspect_ratio_unit_interval (sqrt : Q → Q)
    (manual_clusters : list ManualCluster) (raw_list : list RawComponent)
    (raw_data : list Component) (c : Component) :
  load_data sqrt manual_clusters raw_list = Ok raw_data → c ∈ raw_data →
  0 <= envelope_width_m c ∧ envelope_width_m c <= envelope_length_m c
  ∧ 0 <= aspect_ratio c ∧ aspect_ratio c <= 1.
Proof.
  intros Hload Hc.
  destruct (filter_components_inv sqrt _ _ _ _ Hload Hc) as (r & _ & _ & Ha).
  by eapply augment_unit_interval.
Qed.

Lemma aspect_ratio_unit_interval_witness :
  ∃ c, c ∈ sample_loaded
       ∧ 0 <= envelope_width_m c ∧ envelope_width_m c <= envelope_length_m c
       ∧ 0 <= aspect_ratio c ∧ aspect_ratio c <= 1.
Proof.
  eexists. split; [apply list_elem_of_here|].
  apply (aspect_ratio_unit_interval Qsqrt sample_clusters sample_raw sample_loaded).
  - vm_compute. reflexivity.
  - apply list_elem_of_here.
Defined.

(** ** Dictionaries filled by a loop *)

Lemma lookup_foldl_insert `{Countable K} {V : Type} (f : K → V)
    (keys : list K) (d : gmap K V) (k : K) :
  foldl (λ d k, <[k := f k]> d) d keys !! k
  = if decide (k ∈ keys) then Some (f k) else d !! k.
Proof.
  revert d. induction keys as [|k0 keys IH]; intros d; cbn [foldl].
  - case_decide as Hk; [by apply elem_of_nil in Hk | done].
  - rewrite IH. destruct (decide (k ∈ keys)) as [Hk|Hk].
    + rewrite decide_True; [done | by right].
    + destruct (decide (k0 = k)) as [->|Hne].
      * rewrite lookup_insert_eq, decide_True; [done | by left].
      * rewrite lookup_insert_ne by done.
        rewrite decide_False; [done|]. intros [?|?]%elem_of_cons; congruence.
Qed.

Lemma filter_nil_not_elem_of {A : Type} (P : A → Prop) `{∀ x, Decision (P x)}
    (l : list A) :
  filter P l = [] ↔ ∀ x, x ∈ l → ¬ P x.
Proof.
  split.
  - intros Hnil x Hx HP.
    assert (x ∈ filter P l) as Hin by (by apply list_elem_of_filter).
    rewrite Hnil in Hin. by apply elem_of_nil in Hin.
  - intros Hall. destruct (filter P l) as [|x l'] eqn:E; [done|].
    assert (x ∈ filter P l) as [HP Hx]%list_elem_of_filter by (rewrite E; left).
    by destruct (Hall x Hx).
Qed.

(** ** Canonical dimensions and single-component rules *)

Section Statistics.

Context (sqrt : Q → Q).

Lemma elem_of_observed_point_counts (single : list BenchRow) (pc : nat) :
  pc ∈ observed_point_counts single ↔ point_count_subset single pc ≠ [].
Proof.
  unfold observed_point_counts, point_count_subset.
  rewrite merge_sort_Permutation, elem_of_remove_dups, list_elem_of_fmap.
  rewrite filter_nil_not_elem_of. split.
  - intros (r & -> & Hr) Hall. by apply (Hall r Hr).
  - intros Hne. destruct (filter (λ r, point_count (comp r) = pc) single)
      as [|r l] eqn:E.
    + destruct Hne. intros r Hr HP.
      assert (r ∈ filter (λ r, point_count (comp r) = pc) single) as Hin
        by (by apply list_elem_of_filter).
      rewrite E in Hin. by apply elem_of_nil in Hin.
    + assert (r ∈ filter (λ r, point_count (comp r) = pc) single)
        as [HP Hr]%list_elem_of_filter by (rewrite E; left).
      by exists r.
Qed.

(** The canonical statistics have an entry for a point count exactly when
    a single-component bench has it, made of the benches that have it. *)
Lemma canonical_dimensions_lookup (bench_components : list BenchRow) (pc : nat) :
  calculate_canonical_dimensions sqrt bench_components !! pc
  = match point_count_subset (single_benches bench_components) pc with
    | [] => None
    | subset => Some (canonical_entry sqrt subset)
    end.
Proof.
  unfold calculate_canonical_dimensions.
  rewrite (lookup_foldl_insert
             (λ pc, canonical_entry sqrt
                      (point_count_subset (single_benches bench_components) pc))).
  rewrite lookup_empty.
  destruct (decide _) as [Hin|Hout].
  - apply elem_of_observed_point_counts in Hin.
    by destruct (point_count_subset _ pc).
  - rewrite elem_of_observed_point_counts in Hout.
    destruct (point_count_subset _ pc); [done|]. by destruct Hout.
Qed.

Lemma canonical_entry_count (subset : list BenchRow) :
  count (canonical_entry sqrt subset) = length subset.
Proof. done. Qed.

Lemma single_rules_lookup (manual_clusters : list ManualCluster)
    (bench_components : list BenchRow) (pc : nat) :
  single_component_benches
    (generate_detection_rules sqrt manual_clusters bench_components) !! pc
  = match point_count_subset (single_benches bench_components) pc with
    | [] => None
    | subset => Some (single_rule pc (canonical_entry sqrt subset))
    end.
Proof.
  simpl. rewrite map_lookup_imap, canonical_dimensions_lookup.
  by destruct (point_count_subset _ pc).
Qed.

(** ** Multi-component geometry *)

Lemma geometry_step_lookup (bench_components : list BenchRow)
    (geometric_patterns : gmap Z (list Pattern)) (cluster : ManualCluster) (cc : Z) :
  geometry_step sqrt bench_components geometric_patterns cluster !! cc
  = if decide (cl_component_count cluster = cc) then
      Some (default [] (geometric_patterns !! cc)
            ++ option_list (geometry_entry sqrt bench_components cluster))
    else geometric_patterns !! cc.
Proof.
  unfold geometry_step.
  destruct (decide (cl_component_count cluster = cc)) as [->|Hne].
  - destruct (geometric_patterns !! cc) as [ps|] eqn:Hgp;
      destruct (geometry_entry sqrt bench_components cluster) as [p|]; simpl.
    + by rewrite lookup_insert_eq, Hgp.
    + by rewrite Hgp, app_nil_r.
    + by rewrite !lookup_insert_eq.
    + by rewrite lookup_insert_eq.
  - destruct (geometric_patterns !! cl_component_count cluster);
      destruct (geometry_entry sqrt bench_components cluster);
      by rewrite ?lookup_insert_ne.
Qed.

Lemma foldl_geometry_step_lookup (bench_components : list BenchRow)
    (clusters : list ManualCluster) (geometric_patterns : gmap Z (list Pattern))
    (cc : Z) :
  foldl (geometry_step sqrt bench_components) geometric_patterns clusters !! cc
  = match geometric_patterns !! cc with
    | Some ps => Some (ps ++ group_patterns sqrt bench_components clusters cc)
    | None =>
        if decide (Exists (λ c, cl_component_count c = cc) clusters)
        then Some (group_patterns sqrt bench_components clusters cc)
        else None
    end.
Proof.
  revert geometric_patterns.
  induction clusters as [|c cs IH]; intros gp; cbn [foldl].
  - destruct (gp !! cc); [by rewrite app_nil_r|].
    rewrite decide_False; [done | by intros ?%Exists_nil].
  - rewrite IH, geometry_step_lookup. unfold group_patterns.
    rewrite filter_cons.
    destruct (decide (cl_component_count c = cc)) as [Hc|Hc].
    + simpl. rewrite <- app_assoc.
      assert (option_list (geometry_entry sqrt bench_components c)
              ++ omap (geometry_entry sqrt bench_components)
                   (filter (λ c, cl_component_count c = cc) cs)
              = match geometry_entry sqrt bench_components c with
                | Some y => y :: omap (geometry_entry sqrt bench_components)
                                   (filter (λ c, cl_component_count c = cc) cs)
                | None => omap (geometry_entry sqrt bench_components)
                            (filter (λ c, cl_component_count c = cc) cs)
                end) as -> by (by destruct (geometry_entry _ _ _)).
      destruct (gp !! cc); simpl; [done|].
      rewrite decide_True; [done | by left].
    + destruct (gp !! cc); [done|].
      destruct (decide (Exists _ cs)) as [He|He].
      * rewrite decide_True; [done | by right].
      * rewrite decide_False; [done|]. by intros [?|?]%Exists_cons.
Qed.

(** The dictionary of patterns: a component count has the patterns of its
    multi-component clusters, and no entry where it has no such cluster. *)
Lemma geometric_patterns_lookup (manual_clusters : list ManualCluster)
    (bench_components : list BenchRow) (cc : Z) :
  analyze_multi_component_geometry sqrt manual_clusters bench_components !! cc
  = if decide (Exists (λ c, cl_component_count c = cc)
                 (multi_component_clusters manual_clusters))
    then Some (group_patterns sqrt bench_components
                 (multi_component_clusters manual_clusters) cc)
    else None.
Proof.
  unfold analyze_multi_component_geometry.
  by rewrite foldl_geometry_step_lookup, lookup_empty.
Qed.

Lemma clustering_rules_lookup (manual_clusters : list ManualCluster)
    (bench_components : list BenchRow) (cc : Z) :
  multi_component_clustering
    (generate_detection_rules sqrt manual_clusters bench_components) !! cc
  = analyze_multi_component_geometry sqrt manual_clusters bench_components !! cc
    ≫= clustering_rule sqrt cc.
Proof. simpl. by rewrite map_lookup_imap. Qed.

(** The pattern of a cluster: none without a component in the frame;
    otherwise its largest distance is the largest centroid distance of the
    cluster, and all three distances are 0 where one component is in the
    frame. *)
Lemma geometry_entry_spec (bench_components : list BenchRow) (cluster : ManualCluster) :
  let n := length (isin bench_components (cl_component_ids cluster)) in
  match geometry_entry sqrt bench_components cluster with
  | None => n = 0%nat
  | Some p =>
      n ≠ 0%nat
      ∧ pt_cluster_id p = cl_id cluster
      ∧ max_distance_m p = cluster_max_distance sqrt bench_components cluster
      ∧ (n = 1%nat → min_distance_m p = 0 ∧ max_distance_m p = 0 ∧ mean_distance_m p = 0)
  end.
Proof.
  unfold geometry_entry, cluster_max_distance, centroids. cbv zeta.
  destruct (decide (length _ = 0%nat)) as [?|Hn]; [done|].
  rewrite length_map.
  destruct (decide (2 ≤ length _)%nat) as [?|?]; simpl.
  - split; [done|]. split; [done|]. split; [done|]. lia.
  - done.
Qed.

Lemma group_patterns_examples (bench_components : list BenchRow)
    (clusters : list ManualCluster) (cc : Z) :
  map max_distance_m (group_patterns sqrt bench_components clusters cc)
  = map (cluster_max_distance sqrt bench_components)
        (filter (λ c, cl_component_count c = cc
                      ∧ length (isin bench_components (cl_component_ids c)) ≠ 0%nat)
                clusters).
Proof.
  unfold group_patterns. induction clusters as [|c cs IH]; [done|].
  rewrite !filter_cons.
  pose proof (geometry_entry_spec bench_components c) as Hc. cbv zeta in Hc.
  destruct (decide (cl_component_count c = cc)) as [Hcc|Hcc].
  - cbn [omap list_omap]. destruct (geometry_entry sqrt bench_components c) as [p|].
    + destruct Hc as (Hn & _ & Hmax & _).
      rewrite decide_True by done. simpl. by rewrite Hmax, IH.
    + rewrite decide_False by tauto. done.
  - rewrite decide_False by tauto. done.
Qed.

(** The clustering rule of a component count: made of the patterns of the
    group where it has one, absent otherwise. *)
Lemma clustering_rule_of_group (manual_clusters : list ManualCluster)
    (bench_components : list BenchRow) (cc : Z) :
  let examples := group_examples manual_clusters bench_components cc in
  let patterns :=
    group_patterns sqrt bench_components (multi_component_clusters manual_clusters) cc in
  map max_distance_m patterns
    = map (cluster_max_distance sqrt bench_components) examples
  ∧ multi_component_clustering
      (generate_detection_rules sqrt manual_clusters bench_components) !! cc
    = match examples with
      | [] => None
      | _ => clustering_rule sqrt cc patterns
      end.
Proof.
  intros examples patterns.
  assert (map max_distance_m patterns
          = map (cluster_max_distance sqrt bench_components) examples) as Hmax
    by apply group_patterns_examples.
  split; [done|].
  rewrite clustering_rules_lookup, geometric_patterns_lookup.
  assert (length patterns = length examples) as Hlen
    by (by rewrite <- (length_map max_distance_m), Hmax, length_map).
  destruct (decide (Exists _ _)) as [He|He]; simpl.
  - fold patterns. destruct examples as [|c l].
    + unfold clustering_rule. rewrite decide_False; [done|]. simpl in Hlen. lia.
    + done.
  - destruct examples as [|c l] eqn:E; [done|]. destruct He.
    assert (c ∈ examples) as Hc by (rewrite E; left).
    apply list_elem_of_filter in Hc as [[Hcc _] Hc].
    apply Exists_exists. by exists c.
Qed.

Lemma clustering_rule_sample (cc : Z) (patterns : list Pattern) :
  patterns ≠ [] →
  ∃ rule, clustering_rule sqrt cc patterns = Some rule
    ∧ suggested_eps_meters rule
      = np_mean (map max_distance_m patterns) + np_std sqrt (map max_distance_m patterns)
    ∧ cr_sample_count rule = length patterns.
Proof.
  intros Hne. unfold clustering_rule.
  rewrite decide_True by (destruct patterns; [done | simpl; lia]).
  by eexists.
Qed.

End Statistics.

(** ** Single-component rules *)

(** C1, as the code has it: the rule of a single-component group has as
    tolerances 0.02 times the group's mean envelope length and width, as
    aspect-ratio range the group's observed minimum and maximum, and as
    total-length range the group's mean total length minus and plus twice
    its standard deviation; the observed ranges of envelope length and width
    are in the group's canonical statistics. *)
Theorem single_rule_tolerance_and_ranges (sqrt : Q → Q)
    (manual_clusters : list ManualCluster) (bench_components : list BenchRow)
    (pc : nat) :
  let group := point_count_subset (single_benches bench_components) pc in
  let lengths := map (λ r, envelope_length_m (comp r)) group in
  let widths := map (λ r, envelope_width_m (comp r)) group in
  let aspect_ratios := map (λ r, aspect_ratio (comp r)) group in
  let total_lengths := map (λ r, length_m (comp r)) group in
  group ≠ [] →
  ∃ rule stats,
    single_component_benches
      (generate_detection_rules sqrt manual_clusters bench_components) !! pc = Some rule
    ∧ calculate_canonical_dimensions sqrt bench_components !! pc = Some stats
    ∧ envelope_length_tolerance_2pct rule = np_mean lengths * 0.02
    ∧ envelope_width_tolerance_2pct rule = np_mean widths * 0.02
    ∧ aspect_ratio_min rule = np_min aspect_ratios
    ∧ aspect_ratio_max rule = np_max aspect_ratios
    ∧ total_length_min rule = np_mean total_lengths - 2 * np_std sqrt total_lengths
    ∧ total_length_max rule = np_mean total_lengths + 2 * np_std sqrt total_lengths
    ∧ length_range stats = (np_min lengths, np_max lengths)
    ∧ width_range stats = (np_min widths, np_max widths)
    ∧ sr_sample_count rule = length group.
Proof.
  intros group lengths widths aspect_ratios total_lengths Hne.
  exists (single_rule pc (canonical_entry sqrt group)), (canonical_entry sqrt group).
  rewrite single_rules_lookup, canonical_dimensions_lookup. fold group.
  destruct group; [done|]. repeat split.
Qed.

Lemma single_rule_tolerance_and_ranges_witness :
  ∃ rule stats,
    single_component_benches
      (generate_detection_rules Qsqrt sample_clusters sample_rows) !! 2%nat = Some rule
    ∧ calculate_canonical_dimensions Qsqrt sample_rows !! 2%nat = Some stats
    ∧ envelope_length_tolerance_2pct rule
      = np_mean (map (λ r, envelope_length_m (comp r)) sample_group) * 0.02
    ∧ envelope_width_tolerance_2pct rule
      = np_mean (map (λ r, envelope_width_m (comp r)) sample_group) * 0.02
    ∧ aspect_ratio_min rule = np_min (map (λ r, aspect_ratio (comp r)) sample_group)
    ∧ aspect_ratio_max rule = np_max (map (λ r, aspect_ratio (comp r)) sample_group)
    ∧ total_length_min rule
      = np_mean (map (λ r, length_m (comp r)) sample_group)
        - 2 * np_std Qsqrt (map (λ r, length_m (comp r)) sample_group)
    ∧ total_length_max rule
      = np_mean (map (λ r, length_m (comp r)) sample_group)
        + 2 * np_std Qsqrt (map (λ r, length_m (comp r)) sample_group)
    ∧ length_range stats
      = (np_min (map (λ r, envelope_length_m (comp r)) sample_group),
         np_max (map (λ r, envelope_length_m (comp r)) sample_group))
    ∧ width_range stats
      = (np_min (map (λ r, envelope_width_m (comp r)) sample_group),
         np_max (map (λ r, envelope_width_m (comp r)) sample_group))
    ∧ sr_sample_count rule = length sample_group.
Proof.
  apply (single_rule_tolerance_and_ranges Qsqrt sample_clusters sample_rows 2).
  vm_compute. discriminate.
Defined.

(** C1, as stated, fails: on the sample input the 2-point single benches
    have total lengths 111000 and 333000, and the rule's total-length range
    is 0 to 444000, not the observed 111000 to 333000. *)
Lemma total_length_range_is_not_observed_range :
  load_data Qsqrt sample_clusters sample_raw = Ok sample_loaded
  ∧ extract_bench_components sample_clusters sample_loaded = Ok sample_rows
  ∧ ∃ rule,
      single_component_benches
        (generate_detection_rules Qsqrt sample_clusters sample_rows) !! 2%nat = Some rule
      ∧ let total_lengths := map (λ r, length_m (comp r)) sample_group in
        np_min total_lengths == 111000 ∧ np_max total_lengths == 333000
        ∧ total_length_min rule == 0 ∧ total_length_max rule == 444000
        ∧ ¬ total_length_min rule == np_min total_lengths
        ∧ ¬ total_length_max rule == np_max total_lengths.
Proof.
  split; [by vm_compute|]. split; [by vm_compute|].
  eexists. split; [vm_compute; reflexivity|].
  repeat split; by vm_compute.
Qed.

(** ** Clustering rules *)

(** C3: a component-count group with at least one example has a clustering
    rule whose suggested radius is the mean plus the standard deviation of
    the examples' largest centroid distances (in degrees, times 111000). *)
Theorem suggested_eps_mean_plus_std (sqrt : Q → Q)
    (manual_clusters : list ManualCluster) (bench_components : list BenchRow)
    (comp_count : Z) :
  let examples := group_examples manual_clusters bench_components comp_count in
  let max_dists := map (cluster_max_distance sqrt bench_components) examples in
  examples ≠ [] →
  ∃ rule,
    multi_component_clustering
      (generate_detection_rules sqrt manual_clusters bench_components) !! comp_count
    = Some rule
    ∧ max_distance_mean rule = np_mean max_dists
    ∧ max_distance_std rule = np_std sqrt max_dists
    ∧ suggested_eps_meters rule = np_mean max_dists + np_std sqrt max_dists
    ∧ cr_sample_count rule = length examples.
Proof.
  intros examples max_dists Hne.
  destruct (clustering_rule_of_group sqrt manual_clusters bench_components comp_count)
    as [Hmax Hrule].
  fold examples in Hmax, Hrule. fold max_dists in Hmax.
  rewrite Hrule. unfold clustering_rule. rewrite Hmax.
  assert (length (group_patterns sqrt bench_components
                    (multi_component_clusters manual_clusters) comp_count)
          = length examples) as Hlen
    by (by rewrite <- (length_map max_distance_m), Hmax; unfold max_dists;
        rewrite length_map).
  destruct examples as [|c l]; [done|].
  rewrite decide_True by (rewrite Hlen; simpl; lia).
  eexists. split; [done|]. simpl. by rewrite Hlen.
Qed.

Lemma suggested_eps_mean_plus_std_witness :
  ∃ rule,
    multi_component_clustering
      (generate_detection_rules Qsqrt sample_clusters sample_rows) !! 2%Z = Some rule
    ∧ max_distance_mean rule
      = np_mean (map (cluster_max_distance Qsqrt sample_rows)
                     (group_examples sample_clusters sample_rows 2))
    ∧ max_distance_std rule
      = np_std Qsqrt (map (cluster_max_distance Qsqrt sample_rows)
                          (group_examples sample_clusters sample_rows 2))
    ∧ suggested_eps_meters rule
      = np_mean (map (cluster_max_distance Qsqrt sample_rows)
                     (group_examples sample_clusters sample_rows 2))
        + np_std Qsqrt (map (cluster_max_distance Qsqrt sample_rows)
                            (group_examples sample_clusters sample_rows 2))
    ∧ cr_sample_count rule = length (group_examples sample_clusters sample_rows 2).
Proof.
  apply (suggested_eps_mean_plus_std Qsqrt sample_clusters sample_rows 2).
  vm_compute. discriminate.
Defined.

(** On the sample input the two-component group has the largest distances
    333000 and 0, and the suggested radius 166500 + 166500. *)
Example sample_suggested_eps :
  Forall2 Qeq (map (cluster_max_distance Qsqrt sample_rows)
                   (group_examples sample_clusters sample_rows 2)) [333000; 0]
  ∧ ∃ rule,
      multi_component_clustering
        (generate_detection_rules Qsqrt sample_clusters sample_rows) !! 2%Z = Some rule
      ∧ suggested_eps_meters rule == 333000.
Proof.
  split; [repeat constructor; by vm_compute|].
  eexists. split; [vm_compute; reflexivity | by vm_compute].
Qed.

(** ** Empty groups *)

(** C7: a group without members has no entry.  The canonical statistics and
    the single-component rules have an entry for a point count exactly when
    a single-component bench has that point count, and the entry counts
    these benches; the clustering rules have an entry for a component count
    exactly when the group has an example, and the entry counts the
    examples. *)
Theorem empty_group_has_no_entry (sqrt : Q → Q)
    (manual_clusters : list ManualCluster) (bench_components : list BenchRow) :
  let rules := generate_detection_rules sqrt manual_clusters bench_components in
  (∀ pc,
     let group := point_count_subset (single_benches bench_components) pc in
     match calculate_canonical_dimensions sqrt bench_components !! pc with
     | None => group = []
     | Some stats =>
         stats = canonical_entry sqrt group ∧ count stats = length group
         ∧ (0 < count stats)%nat
     end
     ∧ match single_component_benches rules !! pc with
       | None => group = []
       | Some rule => sr_sample_count rule = length group ∧ (0 < sr_sample_count rule)%nat
       end)
  ∧ (∀ cc,
       let examples := group_examples manual_clusters bench_components cc in
       match multi_component_clustering rules !! cc with
       | None => examples = []
       | Some rule => cr_sample_count rule = length examples ∧ (0 < cr_sample_count rule)%nat
       end).
Proof.
  intros rules. split.
  - intros pc group. unfold rules.
    rewrite single_rules_lookup, canonical_dimensions_lookup. fold group.
    destruct group; [done|]. simpl. repeat split; lia.
  - intros cc examples.
    destruct (clustering_rule_of_group sqrt manual_clusters bench_components cc)
      as [Hmax Hrule].
    fold examples in Hmax, Hrule. unfold rules. rewrite Hrule.
    assert (length (group_patterns sqrt bench_components
                      (multi_component_clusters manual_clusters) cc)
            = length examples) as Hlen
      by (by rewrite <- (length_map max_distance_m), Hmax, length_map).
    destruct examples as [|c l]; [done|].
    unfold clustering_rule. rewrite decide_True by (rewrite Hlen; simpl; lia).
    simpl. rewrite Hlen. simpl. split; [done | lia].
Qed.

(** ** A cluster with one component in the frame *)

(** C9: a multi-component bench cluster of which exactly one component is
    in the frame gets no entry in the spatial statistics, but a pattern of
    the multi-component geometry with minimum, maximum and mean distance 0;
    the pattern is among the patterns of the cluster's component count, of
    whose largest distances the clustering rule takes mean and standard
    deviation for the suggested radius. *)
Theorem single_resolved_cluster_contributes_zero (sqrt : Q → Q)
    (manual_clusters : list ManualCluster) (bench_components : list BenchRow)
    (cluster : ManualCluster) :
  cluster ∈ multi_component_clusters manual_clusters →
  length (isin bench_components (cl_component_ids cluster)) = 1%nat →
  spatial_entry sqrt bench_components cluster = None
  ∧ (∀ s, s ∈ analyze_spatial_relationships sqrt manual_clusters bench_components →
          ∃ c, c ∈ multi_component_clusters manual_clusters
               ∧ spatial_entry sqrt bench_components c = Some s
               ∧ (2 ≤ length (isin bench_components (cl_component_ids c)))%nat)
  ∧ ∃ p patterns rule,
      geometry_entry sqrt bench_components cluster = Some p
      ∧ pt_cluster_id p = cl_id cluster
      ∧ min_distance_m p = 0 ∧ max_distance_m p = 0 ∧ mean_distance_m p = 0
      ∧ analyze_multi_component_geometry sqrt manual_clusters bench_components
          !! cl_component_count cluster = Some patterns
      ∧ p ∈ patterns
      ∧ multi_component_clustering
          (generate_detection_rules sqrt manual_clusters bench_components)
          !! cl_component_count cluster = Some rule
      ∧ max_distance_mean rule = np_mean (map max_distance_m patterns)
      ∧ suggested_eps_meters rule
        = np_mean (map max_distance_m patterns)
          + np_std sqrt (map max_distance_m patterns).
Proof.
  intros Hin Hone. split; [|split].
  - unfold spatial_entry. cbv zeta. rewrite decide_True; [done | lia].
  - intros s (c & Hc & Hs)%list_elem_of_omap. exists c. split; [done|].
    split; [done|]. unfold spatial_entry in Hs. cbv zeta in Hs.
    destruct (decide (length _ < 2)%nat); [done | lia].
  - pose proof (geometry_entry_spec sqrt bench_components cluster) as Hp.
    cbv zeta in Hp.
    destruct (geometry_entry sqrt bench_components cluster) as [p|] eqn:Hentry;
      [|lia].
    destruct Hp as (_ & Hid & _ & Hzero). destruct (Hzero Hone) as (? & ? & ?).
    set (patterns := group_patterns sqrt bench_components
                       (multi_component_clusters manual_clusters)
                       (cl_component_count cluster)).
    assert (p ∈ patterns) as Hpin.
    { apply list_elem_of_omap. exists cluster.
      split; [by apply list_elem_of_filter | done]. }
    assert (patterns ≠ []) as Hne
      by (intros Hnil; rewrite Hnil in Hpin; by apply elem_of_nil in Hpin).
    destruct (clustering_rule_sample sqrt (cl_component_count cluster) patterns Hne)
      as (rule & Hrule & Heps & _).
    assert (analyze_multi_component_geometry sqrt manual_clusters bench_components
              !! cl_component_count cluster = Some patterns) as Hlookup.
    { rewrite geometric_patterns_lookup, decide_True; [done|].
      apply Exists_exists. by exists cluster. }
    exists p, patterns, rule. repeat (split; [done|]).
    split; [by rewrite clustering_rules_lookup, Hlookup|].
    split; [|done].
    unfold clustering_rule in Hrule.
    destruct (decide (0 < length patterns)%nat); [|done]. by injection Hrule as <-.
Qed.

Lemma single_resolved_cluster_contributes_zero_witness :
  spatial_entry Qsqrt sample_rows (cluster 4 "benches" [5%Z; 77%Z] 2) = None
  ∧ (∀ s, s ∈ analyze_spatial_relationships Qsqrt sample_clusters sample_rows →
          ∃ c, c ∈ multi_component_clusters sample_clusters
               ∧ spatial_entry Qsqrt sample_rows c = Some s
               ∧ (2 ≤ length (isin sample_rows (cl_component_ids c)))%nat)
  ∧ ∃ p patterns rule,
      geometry_entry Qsqrt sample_rows (cluster 4 "benches" [5%Z; 77%Z] 2) = Some p
      ∧ pt_cluster_id p = 4%Z
      ∧ min_distance_m p = 0 ∧ max_distance_m p = 0 ∧ mean_distance_m p = 0
      ∧ analyze_multi_component_geometry Qsqrt sample_clusters sample_rows !! 2%Z
        = Some patterns
      ∧ p ∈ patterns
      ∧ multi_component_clustering
          (generate_detection_rules Qsqrt sample_clusters sample_rows) !! 2%Z
        = Some rule
      ∧ max_distance_mean rule = np_mean (map max_distance_m patterns)
      ∧ suggested_eps_meters rule
        = np_mean (map max_distance_m patterns)
          + np_std Qsqrt (map max_distance_m patterns).
Proof.
  apply (single_resolved_cluster_contributes_zero Qsqrt sample_clusters sample_rows
           (cluster 4 "benches" [5%Z; 77%Z] 2)).
  - vm_compute. right. left.
  - vm_compute. reflexivity.
Defined.

(** ** Validation against detection results *)

Lemma of_nat_div (n m : nat) :
  (0 < m)%nat → py_div (of_nat n) (of_nat m) = Ok (of_nat n / of_nat m).
Proof. intros Hm. apply py_div_pos. by apply of_nat_pos. Qed.

(** C4: with a detection-results file, the validation gives the overlap
    metrics: recall is the size of the intersection over the number of
    manual ids and precision the same size over the number of detected ids,
    each 0 where its denominator is 0; nothing is raised. *)
Theorem validation_recall_precision (fs : FileSystem)
    (manual_clusters : list ManualCluster) (path : string)
    (detection_data : list ArrData) :
  path ≠ "" → fs path = Some detection_data →
  let manual := bench_ids manual_clusters in
  let detected := fst (foldl detected_step (∅, 0%nat) detection_data) in
  ∃ m,
    validate_against_current_detection fs manual_clusters (Some path)
    = Ok (ValidationMetrics m)
    ∧ true_positives m = size (manual ∩ detected)
    ∧ false_negatives m = size (manual ∖ detected)
    ∧ potential_false_positives m = size (detected ∖ manual)
    ∧ recall m = (if decide (size manual = 0)%nat then 0
                  else of_nat (size (manual ∩ detected)) / of_nat (size manual))
    ∧ precision m = (if decide (size detected = 0)%nat then 0
                     else of_nat (size (manual ∩ detected)) / of_nat (size detected)).
Proof.
  intros Hpath Hfs manual detected.
  unfold validate_against_current_detection, detection_file.
  rewrite decide_False by done. rewrite Hfs. fold manual.
  unfold detected.
  destruct (foldl detected_step (∅, 0%nat) detection_data) as [ids total].
  cbn [fst].
  destruct (decide (0 < size manual)%nat) as [Hm|Hm];
    destruct (decide (0 < size ids)%nat) as [Hd|Hd];
    rewrite ?(of_nat_div _ _ Hm), ?(of_nat_div _ _ Hd); simpl;
    eexists; (split; [reflexivity|]); simpl;
    repeat (split; [done|]); repeat case_decide; done || lia.
Qed.

Lemma validation_recall_precision_witness :
  ∃ m,
    validate_against_current_detection sample_disk recall_clusters (Some "detected.json")
    = Ok (ValidationMetrics m)
    ∧ true_positives m = size (bench_ids recall_clusters ∩ sample_detected)
    ∧ false_negatives m = size (bench_ids recall_clusters ∖ sample_detected)
    ∧ potential_false_positives m = size (sample_detected ∖ bench_ids recall_clusters)
    ∧ recall m
      = (if decide (size (bench_ids recall_clusters) = 0)%nat then 0
         else of_nat (size (bench_ids recall_clusters ∩ sample_detected))
              / of_nat (size (bench_ids recall_clusters)))
    ∧ precision m
      = (if decide (size sample_detected = 0)%nat then 0
         else of_nat (size (bench_ids recall_clusters ∩ sample_detected))
              / of_nat (size sample_detected)).
Proof.
  apply (validation_recall_precision sample_disk recall_clusters "detected.json"
           sample_detection).
  - discriminate.
  - reflexivity.
Defined.

(** The manual ids 1, 2, 3 against the detected ids 2, 3, 4: the overlap is
    2 and 3, recall and precision are 2/3. *)
Example recall_precision_two_thirds :
  elements (bench_ids recall_clusters ∩ sample_detected) ≡ₚ [2%Z; 3%Z]
  ∧ ∃ m,
      validate_against_current_detection sample_disk recall_clusters
        (Some "detected.json") = Ok (ValidationMetrics m)
      ∧ true_positives m = 2%nat ∧ false_negatives m = 1%nat
      ∧ potential_false_positives m = 1%nat
      ∧ recall m == 2 # 3 ∧ precision m == 2 # 3.
Proof.
  split; [vm_compute; apply perm_swap|].
  eexists. split; [vm_compute; reflexivity|]. repeat split.
Qed.

(** No detected id: precision is 0 and nothing is raised. *)
Example precision_of_no_detection :
  ∃ m,
    validate_against_current_detection empty_detection_disk recall_clusters
      (Some "detected.json") = Ok (ValidationMetrics m)
    ∧ detected_components m = 0%nat ∧ recall m == 0 ∧ precision m = 0.
Proof.
  eexists. split; [vm_compute; reflexivity|]. repeat split.
Qed.

(** ** The validation section of the results *)

(** C10: the full analysis validates without a detection-results path: the
    validation section of its results is the baseline (number of bench
    clusters, number of manual ids, the two distributions) and never the
    metrics, whatever files are on disk. *)
Theorem full_analysis_validation_is_baseline (sqrt : Q → Q) (fs : FileSystem)
    (manual_clusters : list ManualCluster) (raw_list : list RawComponent)
    (results : Results) :
  run_full_analysis sqrt fs manual_clusters raw_list = Ok results →
  validation_patterns results
  = ValidationBaseline
      {| bl_manual_clusters := length (bench_clusters manual_clusters);
         bl_manual_components := size (bench_ids manual_clusters);
         component_count_distribution :=
           foldl (λ d cluster, count_up d (cl_component_count cluster)) ∅
                 (bench_clusters manual_clusters);
         arrondissement_distribution :=
           foldl (λ d cluster, count_up d (cl_arrondissement cluster)) ∅
                 (bench_clusters manual_clusters) |}.
Proof.
  unfold run_full_analysis.
  destruct (load_data sqrt manual_clusters raw_list) as [raw_data|]; [|done].
  simpl.
  destruct (extract_bench_components manual_clusters raw_data) as [rows|]; [|done].
  simpl. by intros [= <-].
Qed.

(** The results of the full analysis on the sample input, on a disk where
    every path names a detection-results file. *)
Lemma full_analysis_validation_is_baseline_witness :
  ∃ results,
    run_full_analysis Qsqrt sample_disk sample_clusters sample_raw = Ok results
    ∧ validation_patterns results
      = ValidationBaseline
          {| bl_manual_clusters := length (bench_clusters sample_clusters);
             bl_manual_components := size (bench_ids sample_clusters);
             component_count_distribution :=
               foldl (λ d cluster, count_up d (cl_component_count cluster)) ∅
                     (bench_clusters sample_clusters);
             arrondissement_distribution :=
               foldl (λ d cluster, count_up d (cl_arrondissement cluster)) ∅
                     (bench_clusters sample_clusters) |}.
Proof.
  destruct (run_full_analysis Qsqrt sample_disk sample_clusters sample_raw)
    as [results|e] eqn:Hrun.
  - exists results. split; [done|].
    exact (full_analysis_validation_is_baseline Qsqrt sample_disk sample_clusters
             sample_raw results Hrun).
  - vm_compute in Hrun. discriminate Hrun.
Defined.

(** * Further properties of the pipeline *)

(** ** Errors of loading *)

Lemma augment_degenerate (sqrt : Q → Q) (component : RawComponent) :
  (length (coordinates component) < 2)%nat →
  augment sqrt component = Raise GeometryError.
Proof. intros Hlen. unfold augment, LineString. by rewrite decide_True. Qed.

Lemma filter_components_outcome (sqrt : Q → Q) (ids : gset Z)
    (raw_list : list RawComponent) :
  match filter_components sqrt ids raw_list with
  | Ok raw_data =>
      Forall (λ r, (2 ≤ length (coordinates r))%nat)
             (filter (λ r, objectid r ∈ ids) raw_list)
      ∧ map raw raw_data = filter (λ r, objectid r ∈ ids) raw_list
  | Raise e =>
      e = GeometryError
      ∧ Exists (λ r, (length (coordinates r) < 2)%nat)
               (filter (λ r, objectid r ∈ ids) raw_list)
  end.
Proof.
  induction raw_list as [|r rest IH]; [by split|].
  cbn [filter_components]. rewrite filter_cons.
  destruct (decide (objectid r ∈ ids)) as [Hin|Hout]; [|done].
  destruct (decide (length (coordinates r) < 2)%nat) as [Hlt|Hge].
  - rewrite (augment_degenerate sqrt r Hlt). simpl. split; [done | by left].
  - destruct (bounds (coordinates r)) as [[[minx miny] maxx] maxy] eqn:Hb.
    rewrite (augment_ok sqrt r minx miny maxx maxy) by (done || lia). simpl.
    destruct (filter_components sqrt ids rest) as [data|e]; simpl.
    + destruct IH as [Hall Hraw]. split; [|by rewrite Hraw].
      constructor; [lia | done].
    + destruct IH as [-> Hex]. split; [done | by right].
Qed.

(** X1: on raw records whose coordinate lists are not empty where a bench
    cluster refers to them, loading fails only with a geometry error, and
    exactly when a record that a bench cluster refers to has a single point;
    such a record that no bench cluster refers to does no harm. *)
Theorem load_data_outcome (sqrt : Q → Q) (manual_clusters : list ManualCluster)
    (raw_list : list RawComponent) :
  Forall (λ r, objectid r ∈ bench_ids manual_clusters → coordinates r ≠ [])
         raw_list →
  match load_data sqrt manual_clusters raw_list with
  | Ok raw_data =>
      Forall (λ r, (2 ≤ length (coordinates r))%nat)
             (filter (λ r, objectid r ∈ bench_ids manual_clusters) raw_list)
      ∧ map raw raw_data
        = filter (λ r, objectid r ∈ bench_ids manual_clusters) raw_list
  | Raise e =>
      e = GeometryError
      ∧ Exists (λ r, length (coordinates r) = 1%nat)
               (filter (λ r, objectid r ∈ bench_ids manual_clusters) raw_list)
  end.
Proof.
  intros Hne. rewrite Forall_forall in Hne.
  pose proof (filter_components_outcome sqrt (bench_ids manual_clusters) raw_list)
    as Hload.
  unfold load_data. destruct (filter_components sqrt _ raw_list) as [raw_data|e];
    [done|].
  destruct Hload as [-> Hex]. split; [done|].
  apply Exists_exists in Hex as (r & Hr & Hlen). apply Exists_exists.
  exists r. split; [done|].
  apply list_elem_of_filter in Hr as [Hid Hr].
  specialize (Hne r Hr Hid). destruct (coordinates r) as [|p [|q l]]; simpl in *;
    [done | done | lia].
Qed.

Lemma load_data_outcome_witness :
  match load_data Qsqrt sample_clusters one_point_raw with
  | Ok raw_data =>
      Forall (λ r, (2 ≤ length (coordinates r))%nat)
             (filter (λ r, objectid r ∈ bench_ids sample_clusters) one_point_raw)
      ∧ map raw raw_data
        = filter (λ r, objectid r ∈ bench_ids sample_clusters) one_point_raw
  | Raise e =>
      e = GeometryError
      ∧ Exists (λ r, length (coordinates r) = 1%nat)
               (filter (λ r, objectid r ∈ bench_ids sample_clusters) one_point_raw)
  end.
Proof.
  apply (load_data_outcome Qsqrt sample_clusters one_point_raw).
  repeat constructor; by intros _.
Defined.

(** ** The point count of a retained component *)

Lemma augment_point_count (sqrt : Q → Q) (component : RawComponent)
    (c : Component) :
  augment sqrt component = Ok c →
  point_count c = length (coordinates component) ∧ (2 ≤ point_count c)%nat.
Proof.
  intros Ha. destruct (augment_inv sqrt _ _ Ha) as [Hlen _].
  destruct (bounds (coordinates component)) as [[[minx miny] maxx] maxy] eqn:Hb.
  rewrite (augment_ok sqrt component minx miny maxx maxy Hlen Hb) in Ha.
  by injection Ha as <-.
Qed.

(** ** The join with the clusters *)

Lemma id_to_cluster_fold_lookup (clusters : list ManualCluster)
    (d : gmap Z ClusterInfo) (x : Z) :
  foldl (λ d cluster,
           foldl (λ d comp_id, <[comp_id := cluster_info cluster]> d) d
                 (cl_component_ids cluster))
        d clusters !! x
  = match last (filter (λ c, x ∈ cl_component_ids c) clusters) with
    | Some c => Some (cluster_info c)
    | None => d !! x
    end.
Proof.
  revert d. induction clusters as [|c cs IH]; intros d; cbn [foldl]; [done|].
  rewrite IH, filter_cons.
  destruct (decide (x ∈ cl_component_ids c)) as [Hin|Hout].
  - rewrite last_cons. destruct (last (filter _ cs)); [done|].
    rewrite (lookup_foldl_insert (λ _, cluster_info c)). by rewrite decide_True.
  - destruct (last (filter _ cs)); [done|].
    rewrite (lookup_foldl_insert (λ _, cluster_info c)). by rewrite decide_False.
Qed.

(** The cluster information of an id is that of the last bench cluster that
    lists the id. *)
Lemma id_to_cluster_lookup (manual_clusters : list ManualCluster) (x : Z) :
  id_to_cluster manual_clusters !! x
  = cluster_info
      <$> last (filter (λ c, x ∈ cl_component_ids c) (bench_clusters manual_clusters)).
Proof.
  unfold id_to_cluster. rewrite id_to_cluster_fold_lookup.
  by destruct (last _).
Qed.

Lemma extract_bench_components_inv (manual_clusters : list ManualCluster)
    (raw_data : list Component) (bench_components : list BenchRow) :
  extract_bench_components manual_clusters raw_data = Ok bench_components →
  raw_data ≠ []
  ∧ bench_components
    = map (λ c, {| comp := c;
                   info := id_to_cluster manual_clusters !! objectid (raw c) |})
          raw_data.
Proof. destruct raw_data; [done|]. by intros [= <-]. Qed.

(** X3: every row of the joined frame carries the information of a bench
    cluster that lists its id: the last such cluster of the clusters file,
    which overwrites the earlier ones. *)
Theorem join_takes_last_cluster (sqrt : Q → Q)
    (manual_clusters : list ManualCluster) (raw_list : list RawComponent)
    (raw_data : list Component) (bench_components : list BenchRow) (r : BenchRow) :
  load_data sqrt manual_clusters raw_list = Ok raw_data →
  extract_bench_components manual_clusters raw_data = Ok bench_components →
  r ∈ bench_components →
  ∃ c, last (filter (λ c, row_objectid r ∈ cl_component_ids c)
                    (bench_clusters manual_clusters)) = Some c
       ∧ info r = Some (cluster_info c)
       ∧ c ∈ manual_clusters ∧ cl_type c = "benches"
       ∧ row_objectid r ∈ cl_component_ids c.
Proof.
  intros Hload Hext Hr.
  apply extract_bench_components_inv in Hext as [_ ->].
  apply list_elem_of_fmap in Hr as (c0 & -> & Hc0).
  destruct (filter_components_inv sqrt _ _ _ _ Hload Hc0) as (r0 & _ & Hid & Ha).
  destruct (augment_inv sqrt _ _ Ha) as [_ Hraw].
  unfold row_objectid. simpl. rewrite Hraw, id_to_cluster_lookup.
  destruct (last _) as [c|] eqn:Hlast.
  - exists c. split; [done|]. split; [done|].
    apply last_Some_elem_of in Hlast.
    apply list_elem_of_filter in Hlast as [Hx Hc].
    apply list_elem_of_filter in Hc as [Hty Hc]. done.
  - apply last_None in Hlast.
    apply elem_of_bench_ids in Hid as (c & Hc & Hty & Hx).
    assert (c ∈ filter (λ c, objectid r0 ∈ cl_component_ids c)
                  (bench_clusters manual_clusters)) as Hin.
    { apply list_elem_of_filter. split; [done|]. by apply list_elem_of_filter. }
    rewrite Hlast in Hin. by apply elem_of_nil in Hin.
Qed.

Lemma join_takes_last_cluster_witness :
  ∃ r, r ∈ sample_rows
    ∧ ∃ c, last (filter (λ c, row_objectid r ∈ cl_component_ids c)
                        (bench_clusters sample_clusters)) = Some c
           ∧ info r = Some (cluster_info c)
           ∧ c ∈ sample_clusters ∧ cl_type c = "benches"
           ∧ row_objectid r ∈ cl_component_ids c.
Proof.
  eexists. split; [apply list_elem_of_here|].
  apply (join_takes_last_cluster Qsqrt sample_clusters sample_raw sample_loaded
           sample_rows).
  - vm_compute. reflexivity.
  - vm_compute. reflexivity.
  - apply list_elem_of_here.
Defined.

(** ** The outcome of the full analysis *)

(** X4: on raw records whose coordinate lists are not empty where a bench
    cluster refers to them, the full analysis raises a geometry error
    exactly when a record that a bench cluster refers to has a single point,
    and otherwise a key error exactly when no raw record is referred to by a
    bench cluster; it never divides by zero.  When it returns, its summary
    counts the raw records that bench clusters refer to. *)
Theorem run_full_analysis_outcome (sqrt : Q → Q) (fs : FileSystem)
    (manual_clusters : list ManualCluster) (raw_list : list RawComponent) :
  Forall (λ r, objectid r ∈ bench_ids manual_clusters → coordinates r ≠ [])
         raw_list →
  match run_full_analysis sqrt fs manual_clusters raw_list with
  | Ok results =>
      filter (λ r, objectid r ∈ bench_ids manual_clusters) raw_list ≠ []
      ∧ Forall (λ r, (2 ≤ length (coordinates r))%nat)
               (filter (λ r, objectid r ∈ bench_ids manual_clusters) raw_list)
      ∧ total_bench_components (summary results)
        = length (filter (λ r, objectid r ∈ bench_ids manual_clusters) raw_list)
  | Raise GeometryError =>
      Exists (λ r, length (coordinates r) = 1%nat)
             (filter (λ r, objectid r ∈ bench_ids manual_clusters) raw_list)
  | Raise KeyError =>
      filter (λ r, objectid r ∈ bench_ids manual_clusters) raw_list = []
  | Raise ZeroDivisionError => False
  end.
Proof.
  intros Hne. rewrite Forall_forall in Hne. unfold run_full_analysis.
  pose proof (filter_components_outcome sqrt (bench_ids manual_clusters) raw_list)
    as Hload.
  unfold load_data.
  destruct (filter_components sqrt _ raw_list) as [raw_data|e]; simpl.
  - destruct Hload as [Hall Hraw].
    destruct raw_data as [|c data]; simpl.
    + by rewrite <- Hraw.
    + split; [by rewrite <- Hraw|]. split; [done|].
      by rewrite <- Hraw, !length_map.
  - destruct Hload as [-> Hex].
    apply Exists_exists in Hex as (r & Hr & Hlen). apply Exists_exists.
    exists r. split; [done|].
    apply list_elem_of_filter in Hr as [Hid Hr].
    specialize (Hne r Hr Hid). destruct (coordinates r) as [|p [|q l]]; simpl in *;
      [done | done | lia].
Qed.

Lemma run_full_analysis_outcome_witness :
  match run_full_analysis Qsqrt sample_disk sample_clusters sample_raw with
  | Ok results =>
      filter (λ r, objectid r ∈ bench_ids sample_clusters) sample_raw ≠ []
      ∧ Forall (λ r, (2 ≤ length (coordinates r))%nat)
               (filter (λ r, objectid r ∈ bench_ids sample_clusters) sample_raw)
      ∧ total_bench_components (summary results)
        = length (filter (λ r, objectid r ∈ bench_ids sample_clusters) sample_raw)
  | Raise GeometryError =>
      Exists (λ r, length (coordinates r) = 1%nat)
             (filter (λ r, objectid r ∈ bench_ids sample_clusters) sample_raw)
  | Raise KeyError =>
      filter (λ r, objectid r ∈ bench_ids sample_clusters) sample_raw = []
  | Raise ZeroDivisionError => False
  end.
Proof.
  apply (run_full_analysis_outcome Qsqrt sample_disk sample_clusters sample_raw).
  repeat constructor; by intros _.
Defined.

(** ** Counters *)

Section Counters.

Context `{Countable K} {A : Type}.
Context (key : A → option K) (step : gmap K nat → A → gmap K nat).
Context (Hstep : ∀ d x, step d x = match key x with
                                   | Some k => count_up d k
                                   | None => d
                                   end).

(** A counter filled by a loop holds, for a key, what it held before plus
    the number of elements with that key, and nothing for a key it did not
    hold that no element has. *)
Lemma lookup_foldl_count_up (l : list A) (d : gmap K nat) (k : K) :
  foldl step d l !! k
  = match length (filter (λ x, key x = Some k) l) with
    | 0%nat => d !! k
    | S n => Some (default 0 (d !! k) + S n)%nat
    end.
Proof.
  revert d. induction l as [|x l IH]; intros d; cbn [foldl]; [done|].
  rewrite IH, Hstep, filter_cons.
  destruct (key x) as [k'|] eqn:Hk.
  - destruct (decide (Some k' = Some k)) as [[= ->]|Hne].
    + unfold count_up. rewrite lookup_insert_eq. simpl.
      destruct (length (filter _ l)); f_equal; lia.
    + unfold count_up. rewrite lookup_insert_ne by congruence. done.
  - rewrite decide_False by done. done.
Qed.

Lemma counter_total_count_up (d : gmap K nat) (k : K) :
  counter_total (count_up d k) = S (counter_total d).
Proof.
  unfold counter_total, count_up.
  destruct (d !! k) as [v|] eqn:Hk; simpl.
  - rewrite <- insert_delete_eq.
    rewrite map_fold_insert_L; [|intros; lia|apply lookup_delete_eq].
    rewrite <- (insert_delete_id d k v) at 2 by done.
    rewrite map_fold_insert_L; [|intros; lia|apply lookup_delete_eq]. lia.
  - rewrite map_fold_insert_L; [|intros; lia|done]. lia.
Qed.

Lemma counter_total_foldl (l : list A) (d : gmap K nat) :
  counter_total (foldl step d l)
  = (counter_total d + length (filter (λ x, is_Some (key x)) l))%nat.
Proof.
  revert d. induction l as [|x l IH]; intros d; cbn [foldl]; [simpl; lia|].
  rewrite IH, Hstep, filter_cons.
  destruct (key x) as [k'|] eqn:Hk.
  - rewrite counter_total_count_up, decide_True by done. simpl. lia.
  - rewrite decide_False; [done|]. by intros [? ?].
Qed.

End Counters.

Lemma counter_total_empty `{Countable K} : counter_total (∅ : gmap K nat) = 0%nat.
Proof. apply map_fold_empty. Qed.

(** ** analyze_component_patterns *)

(** X5: the pattern analysis has, for a component count and a point count,
    the number of rows of the frame with both, and no entry where no row has
    both; its counts add up to the number of rows with cluster
    information. *)
Theorem component_patterns_count (bench_components : list BenchRow) :
  (∀ cc pc,
     analyze_component_patterns bench_components !! (cc, pc)
     = match length (filter (λ r, component_count <$> info r = Some cc
                                  ∧ point_count (comp r) = pc) bench_components) with
       | 0%nat => None
       | n => Some n
       end)
  ∧ counter_total (analyze_component_patterns bench_components)
    = length (filter (λ r, is_Some (info r)) bench_components).
Proof.
  set (key := λ r : BenchRow,
         (λ i, (component_count i, point_count (comp r))) <$> info r).
  assert (∀ d r,
            match info r with
            | Some i => count_up d (component_count i, point_count (comp r))
            | None => d
            end
            = match key r with Some k => count_up d k | None => d end) as Hstep
    by (intros d r; unfold key; by destruct (info r)).
  split.
  - intros cc pc. unfold analyze_component_patterns.
    rewrite (lookup_foldl_count_up key _ Hstep), lookup_empty.
    rewrite (list_filter_iff _ (λ r, component_count <$> info r = Some cc
                                     ∧ point_count (comp r) = pc)).
    + by destruct (length _).
    + intros r. unfold key. destruct (info r) as [i|]; simpl.
      * split; [by intros [= -> ->] | by intros [[= ->] ->]].
      * split; [done | by intros [? _]].
  - unfold analyze_component_patterns.
    rewrite (counter_total_foldl key _ Hstep), counter_total_empty. simpl.
    f_equal. apply list_filter_iff. intros r. unfold key.
    destruct (info r) as [i|]; simpl; [|done].
    split; intros _; by exists i || eexists.
Qed.

(** ** validate_against_current_detection *)

Lemma of_nat_le (n m : nat) : (n ≤ m)%nat → of_nat n <= of_nat m.
Proof. intros Hnm. unfold of_nat, Qle. simpl. lia. Qed.

(** The two outcomes of the validation: the metrics where the detection
    file is read, the baseline otherwise.  It does not raise. *)
Lemma validate_cases (fs : FileSystem) (manual_clusters : list ManualCluster)
    (detection_results_path : option string) :
  let manual := bench_ids manual_clusters in
  match detection_file fs detection_results_path with
  | Some detection_data =>
      let detected := fst (foldl detected_step (∅, 0%nat) detection_data) in
      validate_against_current_detection fs manual_clusters detection_results_path
      = Ok (ValidationMetrics
              {| mt_manual_clusters := length (bench_clusters manual_clusters);
                 mt_manual_components := size manual;
                 detected_benches := snd (foldl detected_step (∅, 0%nat) detection_data);
                 detected_components := size detected;
                 true_positives := size (manual ∩ detected);
                 false_negatives := size (manual ∖ detected);
                 potential_false_positives := size (detected ∖ manual);
                 recall := if decide (0 < size manual)%nat
                           then of_nat (size (manual ∩ detected)) / of_nat (size manual)
                           else 0;
                 precision := if decide (0 < size detected)%nat
                              then of_nat (size (manual ∩ detected))
                                   / of_nat (size detected)
                              else 0 |})
  | None =>
      validate_against_current_detection fs manual_clusters detection_results_path
      = Ok (ValidationBaseline
              {| bl_manual_clusters := length (bench_clusters manual_clusters);
                 bl_manual_components := size manual;
                 component_count_distribution :=
                   foldl (λ d cluster, count_up d (cl_component_count cluster)) ∅
                         (bench_clusters manual_clusters);
                 arrondissement_distribution :=
                   foldl (λ d cluster, count_up d (cl_arrondissement cluster)) ∅
                         (bench_clusters manual_clusters) |})
  end.
Proof.
  intros manual. unfold validate_against_current_detection. fold manual.
  destruct (detection_file fs detection_results_path) as [data|]; [|done].
  destruct (foldl detected_step (∅, 0%nat) data) as [ids total]. cbn [fst snd].
  destruct (decide (0 < size manual)%nat) as [Hm|Hm];
    destruct (decide (0 < size ids)%nat) as [Hd|Hd];
    by rewrite ?(of_nat_div _ _ Hm), ?(of_nat_div _ _ Hd).
Qed.


(** X7: in the baseline, each distribution has for a value the number of
    bench clusters with it and no entry for a value no bench cluster has,
    and its counts add up to the number of bench clusters. *)
Theorem baseline_distributions (fs : FileSystem)
    (manual_clusters : list ManualCluster) (detection_results_path : option string)
    (b : Baseline) :
  validate_against_current_detection fs manual_clusters detection_results_path
  = Ok (ValidationBaseline b) →
  (∀ cc, component_count_distribution b !! cc
         = match length (filter (λ c, cl_component_count c = cc)
                                (bench_clusters manual_clusters)) with
           | 0%nat => None
           | n => Some n
           end)
  ∧ (∀ arr, arrondissement_distribution b !! arr
            = match length (filter (λ c, cl_arrondissement c = arr)
                                   (bench_clusters manual_clusters)) with
              | 0%nat => None
              | n => Some n
              end)
  ∧ counter_total (component_count_distribution b)
    = length (bench_clusters manual_clusters)
  ∧ counter_total (arrondissement_distribution b)
    = length (bench_clusters manual_clusters).
Proof.
  intros Hv.
  pose proof (validate_cases fs manual_clusters detection_results_path) as Hc.
  cbv zeta in Hc.
  destruct (detection_file fs detection_results_path); [congruence|].
  rewrite Hc in Hv. injection Hv as <-. simpl.
  assert (∀ (f : ManualCluster → Z) (clusters : list ManualCluster),
            (∀ k, foldl (λ d c, count_up d (f c)) ∅ clusters !! k
                  = match length (filter (λ c, f c = k) clusters) with
                    | 0%nat => None
                    | n => Some n
                    end)
            ∧ counter_total (foldl (λ d c, count_up d (f c)) ∅ clusters)
              = length clusters) as Hcount.
  { intros f clusters. split.
    - intros k.
      rewrite (lookup_foldl_count_up (λ c, Some (f c)) _ (λ _ _, eq_refl)),
        lookup_empty.
      rewrite (list_filter_iff _ (λ c, f c = k))
        by (intros c; split; [by intros [= ->] | by intros ->]).
      by destruct (length _).
    - rewrite (counter_total_foldl (λ c, Some (f c)) _ (λ _ _, eq_refl)),
        counter_total_empty.
      simpl. f_equal. clear. induction clusters as [|c l IH]; [done|].
      rewrite filter_cons, decide_True by (by eexists). simpl. by rewrite IH. }
  destruct (Hcount cl_component_count (bench_clusters manual_clusters)) as [H1 H2].
  destruct (Hcount cl_arrondissement (bench_clusters manual_clusters)) as [H3 H4].
  done.
Qed.

Lemma baseline_distributions_witness :
  ∃ b,
    validate_against_current_detection sample_disk sample_clusters None
    = Ok (ValidationBaseline b)
    ∧ (∀ cc, component_count_distribution b !! cc
             = match length (filter (λ c, cl_component_count c = cc)
                                    (bench_clusters sample_clusters)) with
               | 0%nat => None
               | n => Some n
               end)
    ∧ (∀ arr, arrondissement_distribution b !! arr
              = match length (filter (λ c, cl_arrondissement c = arr)
                                     (bench_clusters sample_clusters)) with
                | 0%nat => None
                | n => Some n
                end)
    ∧ counter_total (component_count_distribution b)
      = length (bench_clusters sample_clusters)
    ∧ counter_total (arrondissement_distribution b)
      = length (bench_clusters sample_clusters).
Proof.
  eexists. split; [reflexivity|].
  apply (baseline_distributions sample_disk sample_clusters None). reflexivity.
Defined.

Lemma size_intersection_difference (X Y : gset Z) :
  (size (X ∩ Y) + size (X ∖ Y))%nat = size X.
Proof.
  rewrite <- size_union.
  - f_equal. apply set_eq. intros x.
    rewrite elem_of_union, elem_of_intersection, elem_of_difference.
    destruct (decide (x ∈ Y)); tauto.
  - intros x. rewrite elem_of_intersection, elem_of_difference. tauto.
Qed.

Lemma quotient_unit_interval (n m : nat) :
  (n ≤ m)%nat →
  0 <= (if decide (0 < m)%nat then of_nat n / of_nat m else 0)
  ∧ (if decide (0 < m)%nat then of_nat n / of_nat m else 0) <= 1.
Proof.
  intros Hnm. destruct (decide (0 < m)%nat) as [Hm|Hm]; [|split; by vm_compute].
  pose proof (of_nat_pos m Hm) as Hpos.
  pose proof (of_nat_le n m Hnm) as Hle.
  assert (0 <= of_nat n) as Hn by (unfold of_nat, Qle; simpl; lia).
  split.
  - apply Qle_shift_div_l; [done | lra].
  - apply Qle_shift_div_r; [done | lra].
Qed.

(** X8: in the overlap metrics, true positives and false negatives add up to
    the number of manual ids, true positives and potential false positives
    to the number of detected ids, and recall and precision are between 0
    and 1. *)
Theorem metrics_add_up (fs : FileSystem) (manual_clusters : list ManualCluster)
    (detection_results_path : option string) (m : Metrics) :
  validate_against_current_detection fs manual_clusters detection_results_path
  = Ok (ValidationMetrics m) →
  (true_positives m + false_negatives m)%nat = mt_manual_components m
  ∧ (true_positives m + potential_false_positives m)%nat = detected_components m
  ∧ 0 <= recall m ∧ recall m <= 1
  ∧ 0 <= precision m ∧ precision m <= 1.
Proof.
  intros Hv.
  pose proof (validate_cases fs manual_clusters detection_results_path) as Hc.
  cbv zeta in Hc.
  destruct (detection_file fs detection_results_path) as [data|]; [|congruence].
  rewrite Hc in Hv. injection Hv as <-. simpl.
  set (manual := bench_ids manual_clusters).
  set (detected := fst (foldl detected_step (∅, 0%nat) data)).
  split; [apply size_intersection_difference|].
  split.
  { rewrite (comm_L (∩) manual detected). apply size_intersection_difference. }
  assert (size (manual ∩ detected) ≤ size manual)%nat as Hm
    by (pose proof (size_intersection_difference manual detected); lia).
  assert (size (manual ∩ detected) ≤ size detected)%nat as Hd
    by (pose proof (size_intersection_difference detected manual) as Hs;
        rewrite (comm_L (∩) detected manual) in Hs; lia).
  destruct (quotient_unit_interval _ _ Hm). destruct (quotient_unit_interval _ _ Hd).
  done.
Qed.

Lemma metrics_add_up_witness :
  ∃ m,
    validate_against_current_detection sample_disk sample_clusters (Some "detected.json")
    = Ok (ValidationMetrics m)
    ∧ (true_positives m + false_negatives m)%nat = mt_manual_components m
    ∧ (true_positives m + potential_false_positives m)%nat = detected_components m
    ∧ 0 <= recall m ∧ recall m <= 1
    ∧ 0 <= precision m ∧ precision m <= 1.
Proof.
  destruct (validate_against_current_detection sample_disk sample_clusters
              (Some "detected.json")) as [[b|m]|e] eqn:Hv.
  - vm_compute in Hv. discriminate Hv.
  - exists m. split; [done|].
    exact (metrics_add_up sample_disk sample_clusters (Some "detected.json") m Hv).
  - vm_compute in Hv. discriminate Hv.
Defined.

(** The loop over the benches of a district. *)
Lemma detected_step_spec (acc : gset Z * nat) (arr_data : ArrData) :
  snd (detected_step acc arr_data)
  = (snd acc + length (default [] (benches arr_data)))%nat
  ∧ ∀ x, x ∈ fst (detected_step acc arr_data)
         ↔ x ∈ fst acc
           ∨ ∃ bs bench ids, benches arr_data = Some bs ∧ bench ∈ bs
                             ∧ components bench = Some ids ∧ x ∈ ids.
Proof.
  unfold detected_step. destruct (benches arr_data) as [bs|]; simpl.
  2: { split; [lia|]. intros x. split; [by left|].
       by intros [?|(? & ? & ? & ? & _)]. }
  assert (∀ acc : gset Z * nat,
            snd (foldl (λ '(detected_component_ids, total_detected_benches) bench,
                          (match components bench with
                           | Some ids => detected_component_ids ∪ list_to_set ids
                           | None => detected_component_ids
                           end,
                           (total_detected_benches + 1)%nat)) acc bs)
            = (snd acc + length bs)%nat
            ∧ ∀ x : Z,
                   x ∈ fst (foldl (λ '(detected_component_ids, total_detected_benches)
                                     bench,
                                     (match components bench with
                                      | Some ids =>
                                          detected_component_ids ∪ list_to_set ids
                                      | None => detected_component_ids
                                      end,
                                      (total_detected_benches + 1)%nat)) acc bs)
                   ↔ x ∈ fst acc
                     ∨ ∃ bench ids, bench ∈ bs ∧ components bench = Some ids ∧ x ∈ ids)
    as Hinner.
  { clear. induction bs as [|b bs IH]; intros [ids0 n0]; cbn [foldl].
    - simpl. split; [lia|]. intros x. split; [by left|].
      intros [?|(? & ? & Hb & _)]; [done | by apply elem_of_nil in Hb].
    - destruct (IH (match components b with
                    | Some ids => ids0 ∪ list_to_set ids
                    | None => ids0
                    end, (n0 + 1)%nat)) as [Hn Hx].
      split; [rewrite Hn; simpl; lia|].
      intros x. rewrite Hx. simpl. split.
      + intros [Hin|(b' & ids & ? & ? & ?)].
        * destruct (components b) as [ids|] eqn:Hb; [|by left].
          apply elem_of_union in Hin as [?|?%elem_of_list_to_set]; [by left|].
          right. exists b, ids. split; [left | done].
        * right. exists b', ids. split; [by right | done].
      + intros [?|(b' & ids & [->|?]%elem_of_cons & Hb & ?)].
        * left. destruct (components b); [|done]. apply elem_of_union. by left.
        * left. rewrite Hb. apply elem_of_union. right. by apply elem_of_list_to_set.
        * right. by exists b', ids. }
  destruct (Hinner acc) as [Hn Hx]. split; [done|].
  intros x. rewrite Hx. split.
  - intros [?|(b & ids & ? & ? & ?)]; [by left|]. right. by exists bs, b, ids.
  - intros [?|(bs' & b & ids & [= <-] & ? & ? & ?)]; [by left|]. right. by exists b, ids.
Qed.

Lemma detected_fold_spec (detection_data : list ArrData) (acc : gset Z * nat) :
  snd (foldl detected_step acc detection_data)
  = (snd acc + sum_list (map (λ a, length (default [] (benches a))) detection_data))%nat
  ∧ ∀ x, x ∈ fst (foldl detected_step acc detection_data)
         ↔ x ∈ fst acc
           ∨ ∃ a bs bench ids, a ∈ detection_data ∧ benches a = Some bs
                               ∧ bench ∈ bs ∧ components bench = Some ids ∧ x ∈ ids.
Proof.
  revert acc. induction detection_data as [|a l IH]; intros acc; cbn [foldl].
  - simpl. split; [lia|]. intros x. split; [by left|].
    intros [?|(? & ? & ? & ? & Ha & _)]; [done | by apply elem_of_nil in Ha].
  - destruct (IH (detected_step acc a)) as [Hn Hx].
    destruct (detected_step_spec acc a) as [Hn' Hx'].
    split; [rewrite Hn, Hn'; simpl; lia|].
    intros x. rewrite Hx, Hx'. split.
    + intros [[?|(bs & b & ids & ? & ? & ? & ?)]|(a' & bs & b & ids & ? & ?)].
      * by left.
      * right. exists a, bs, b, ids. split; [left | done].
      * right. exists a', bs, b, ids. split; [by right | done].
    + intros [?|(a' & bs & b & ids & [->|?]%elem_of_cons & ?)].
      * by left; left.
      * left. right. by exists bs, b, ids.
      * right. by exists a', bs, b, ids.
Qed.

(** X9: the metrics count every bench of every district of the detection
    file, with or without a components list, and the detected ids are the
    ids of the components lists of these benches. *)
Theorem detected_benches_and_ids (fs : FileSystem)
    (manual_clusters : list ManualCluster) (path : string)
    (detection_data : list ArrData) :
  path ≠ "" → fs path = Some detection_data →
  ∃ m (detected : gset Z),
    validate_against_current_detection fs manual_clusters (Some path)
    = Ok (ValidationMetrics m)
    ∧ detected_benches m
      = sum_list (map (λ a, length (default [] (benches a))) detection_data)
    ∧ detected_components m = size detected
    ∧ ∀ x, x ∈ detected
           ↔ ∃ a bs bench ids, a ∈ detection_data ∧ benches a = Some bs
                               ∧ bench ∈ bs ∧ components bench = Some ids ∧ x ∈ ids.
Proof.
  intros Hpath Hfs.
  pose proof (validate_cases fs manual_clusters (Some path)) as Hc.
  cbv zeta in Hc. unfold detection_file in Hc.
  rewrite decide_False, Hfs in Hc by done.
  destruct (detected_fold_spec detection_data (∅, 0%nat)) as [Hn Hx].
  eexists _, (fst (foldl detected_step (∅, 0%nat) detection_data)).
  split; [exact Hc|]. simpl. split; [by rewrite Hn|]. split; [done|].
  intros x. rewrite Hx. simpl. split; [|by right].
  intros [Hin|?]; [|done]. by apply not_elem_of_empty in Hin.
Qed.

Lemma detected_benches_and_ids_witness :
  ∃ m (detected : gset Z),
    validate_against_current_detection sample_disk sample_clusters (Some "detected.json")
    = Ok (ValidationMetrics m)
    ∧ detected_benches m
      = sum_list (map (λ a, length (default [] (benches a))) sample_detection)
    ∧ detected_components m = size detected
    ∧ ∀ x, x ∈ detected
           ↔ ∃ a bs bench ids, a ∈ sample_detection ∧ benches a = Some bs
                               ∧ bench ∈ bs ∧ components bench = Some ids ∧ x ∈ ids.
Proof.
  apply (detected_benches_and_ids sample_disk sample_clusters "detected.json"
           sample_detection).
  - discriminate.
  - reflexivity.
Defined.

(** ** Minimum, mean and maximum *)

Lemma foldl_Qmin_glb (a x : Q) (l : list Q) :
  a <= x → (∀ y, y ∈ l → a <= y) → a <= foldl Qmin x l.
Proof.
  revert x. induction l as [|z l IH]; intros x Hx Hl; cbn [foldl]; [done|].
  apply IH.
  - apply Q.min_glb; [done | apply Hl; left].
  - intros y Hy. apply Hl. by right.
Qed.

Lemma foldl_Qmax_lub (a x : Q) (l : list Q) :
  x <= a → (∀ y, y ∈ l → y <= a) → foldl Qmax x l <= a.
Proof.
  revert x. induction l as [|z l IH]; intros x Hx Hl; cbn [foldl]; [done|].
  apply IH.
  - apply Q.max_lub; [done | apply Hl; left].
  - intros y Hy. apply Hl. by right.
Qed.

Lemma foldl_Qmin_le_elem (x y : Q) (l : list Q) : y ∈ l → foldl Qmin x l <= y.
Proof.
  revert x. induction l as [|z l IH]; intros x Hy; [by apply elem_of_nil in Hy|].
  cbn [foldl]. apply elem_of_cons in Hy as [->|Hy].
  - eapply Qle_trans; [apply foldl_Qmin_le | apply Q.le_min_r].
  - by apply IH.
Qed.

Lemma foldl_Qmax_ge_elem (x y : Q) (l : list Q) : y ∈ l → y <= foldl Qmax x l.
Proof.
  revert x. induction l as [|z l IH]; intros x Hy; [by apply elem_of_nil in Hy|].
  cbn [foldl]. apply elem_of_cons in Hy as [->|Hy].
  - eapply Qle_trans; [apply Q.le_max_r | apply foldl_Qmax_ge].
  - by apply IH.
Qed.

(** The minimum of a list is below each element and above each lower bound
    of a non-empty list; likewise the maximum. *)
Lemma np_min_le (l : list Q) (y : Q) : y ∈ l → np_min l <= y.
Proof.
  destruct l as [|x l]; [by intros ?%elem_of_nil|].
  intros [->|Hy]%elem_of_cons; [apply foldl_Qmin_le | by apply foldl_Qmin_le_elem].
Qed.

Lemma np_max_ge (l : list Q) (y : Q) : y ∈ l → y <= np_max l.
Proof.
  destruct l as [|x l]; [by intros ?%elem_of_nil|].
  intros [->|Hy]%elem_of_cons; [apply foldl_Qmax_ge | by apply foldl_Qmax_ge_elem].
Qed.

Lemma np_min_glb (l : list Q) (a : Q) :
  l ≠ [] → (∀ y, y ∈ l → a <= y) → a <= np_min l.
Proof.
  destruct l as [|x l]; [done|]. intros _ Hl.
  apply foldl_Qmin_glb; [apply Hl; left | intros y Hy; apply Hl; by right].
Qed.

Lemma np_max_lub (l : list Q) (a : Q) :
  l ≠ [] → (∀ y, y ∈ l → y <= a) → np_max l <= a.
Proof.
  destruct l as [|x l]; [done|]. intros _ Hl.
  apply foldl_Qmax_lub; [apply Hl; left | intros y Hy; apply Hl; by right].
Qed.

Lemma foldl_Qplus_le (l1 l2 : list Q) (a b : Q) :
  a <= b → Forall2 Qle l1 l2 → foldl Qplus a l1 <= foldl Qplus b l2.
Proof.
  intros Hab Hl. revert a b Hab.
  induction Hl as [|x y l1 l2 Hxy _ IH]; intros a b Hab; cbn [foldl]; [done|].
  apply IH. lra.
Qed.

Lemma foldl_Qplus_nonneg (l : list Q) (a : Q) :
  0 <= a → (∀ y, y ∈ l → 0 <= y) → 0 <= foldl Qplus a l.
Proof.
  revert a. induction l as [|x l IH]; intros a Ha Hl; cbn [foldl]; [done|].
  apply IH.
  - assert (0 <= x) by (apply Hl; left). lra.
  - intros y Hy. apply Hl. by right.
Qed.

(** The mean of numbers that are not negative is not negative. *)
Lemma np_mean_nonneg (l : list Q) : (∀ y, y ∈ l → 0 <= y) → 0 <= np_mean l.
Proof.
  intros Hl. unfold np_mean, Qsum.
  destruct l as [|x0 l0] eqn:El; [by vm_compute|]. rewrite <- El in *.
  assert (0 < of_nat (length l)) as Hn
    by (apply of_nat_pos; rewrite El; simpl; lia).
  pose proof (foldl_Qplus_nonneg l 0 (Qle_refl 0) Hl) as Hsum.
  apply Qle_shift_div_l; [done | lra].
Qed.

(** The minimum of a non-empty list is at most its maximum. *)
Lemma np_min_le_max (l : list Q) : l ≠ [] → np_min l <= np_max l.
Proof.
  destruct l as [|x l]; [done|]. intros _.
  eapply Qle_trans; [apply (np_min_le _ x); left | apply (np_max_ge _ x); left].
Qed.

(** The means of two columns of the same rows are ordered as the columns
    are. *)
Lemma np_mean_le {A : Type} (f g : A → Q) (l : list A) :
  (∀ x, x ∈ l → f x <= g x) → np_mean (map f l) <= np_mean (map g l).
Proof.
  intros Hfg. unfold np_mean, Qsum. rewrite !length_map.
  destruct l as [|x0 l0] eqn:El; [by vm_compute|]. rewrite <- El in *.
  assert (0 < of_nat (length l)) as Hn
    by (apply of_nat_pos; rewrite El; simpl; lia).
  assert (Forall2 Qle (map f l) (map g l)) as Hl.
  { clear El Hn. induction l as [|x l IH]; [constructor|].
    constructor; [apply Hfg; left | apply IH; intros y Hy; apply Hfg; by right]. }
  pose proof (foldl_Qplus_le _ _ 0 0 (Qle_refl 0) Hl) as Hsum.
  apply Qle_shift_div_l; [done|].
  unfold Qdiv. rewrite <- Qmult_assoc, (Qmult_comm (/ _)), Qmult_inv_r, Qmult_1_r;
    [done|]. intros Hz. rewrite Hz in Hn. by apply Qlt_irrefl in Hn.
Qed.

(** ** compare_with_detection_results *)

Lemma compare_fold_lookup (clusters : list ManualCluster)
    (d : gmap Z (list ManualCluster)) (cc : Z) :
  foldl (λ by_component_count cluster,
           let cc := cl_component_count cluster in
           let by_component_count :=
             match by_component_count !! cc with
             | None => <[cc := []]> by_component_count
             | Some _ => by_component_count
             end in
           <[cc := default [] (by_component_count !! cc) ++ [cluster]]>
             by_component_count)
        d clusters !! cc
  = match filter (λ c, cl_component_count c = cc) clusters with
    | [] => d !! cc
    | group => Some (default [] (d !! cc) ++ group)
    end.
Proof.
  revert d. induction clusters as [|c cs IH]; intros d; cbn [foldl]; [done|].
  rewrite IH, filter_cons. cbv zeta.
  destruct (decide (cl_component_count c = cc)) as [->|Hne].
  - destruct (d !! cc) as [l0|] eqn:Hd.
    + rewrite lookup_insert_eq, Hd. simpl.
      destruct (filter _ cs); [done|]. by rewrite <- app_assoc.
    + rewrite !lookup_insert_eq. simpl. by destruct (filter _ cs).
  - destruct (d !! cl_component_count c) as [l0|] eqn:Hd.
    + by rewrite lookup_insert_ne.
    + by rewrite !lookup_insert_ne.
Qed.

(** X10: the comparison groups the bench clusters by component count: a
    count is mapped to the bench clusters that have it, in the order of the
    clusters file, and has no entry where no bench cluster has it; the
    detection-results path and the disk make no difference. *)
Theorem compare_groups_by_component_count (fs : FileSystem)
    (manual_clusters : list ManualCluster) (detection_results_path : option string)
    (cc : Z) :
  compare_with_detection_results fs manual_clusters detection_results_path !! cc
  = match filter (λ c, cl_component_count c = cc) (bench_clusters manual_clusters) with
    | [] => None
    | group => Some group
    end.
Proof.
  unfold compare_with_detection_results.
  rewrite compare_fold_lookup, lookup_empty.
  by destruct (filter _ _).
Qed.

(** ** Spatial statistics and patterns *)

Section Spatial.

Context (sqrt : Q → Q).

(** The entry of a cluster in the spatial statistics: none with fewer than
    two components in the frame; otherwise the distances of the cluster's
    pattern. *)
Lemma spatial_entry_spec (bench_components : list BenchRow) (cluster : ManualCluster) :
  let n := length (isin bench_components (cl_component_ids cluster)) in
  match spatial_entry sqrt bench_components cluster with
  | None => (n < 2)%nat
  | Some s =>
      (2 ≤ n)%nat
      ∧ sp_cluster_id s = cl_id cluster
      ∧ sp_component_count s = cl_component_count cluster
      ∧ sp_arrondissement s = cl_arrondissement cluster
      ∧ ∃ p, geometry_entry sqrt bench_components cluster = Some p
             ∧ pt_cluster_id p = sp_cluster_id s
             ∧ min_distance_m p = min_distance s
             ∧ max_distance_m p = max_distance s
             ∧ mean_distance_m p = mean_distance s
  end.
Proof.
  unfold spatial_entry, geometry_entry, centroids. cbv zeta.
  destruct (decide (length _ < 2)%nat) as [?|Hn]; [done|].
  rewrite length_map. rewrite decide_True by lia. simpl.
  split; [lia|]. split; [done|]. split; [done|]. split; [done|].
  rewrite decide_False by lia. rewrite decide_True by lia. by eexists.
Qed.

(** X11: the spatial statistics have one entry for each multi-component
    bench cluster with at least two components in the frame and none for
    the others, in the order of the clusters file, each with the id, the
    component count and the arrondissement of its cluster. *)
Theorem spatial_entries_of_resolved_clusters
    (manual_clusters : list ManualCluster) (bench_components : list BenchRow) :
  map (λ s, (sp_cluster_id s, sp_component_count s, sp_arrondissement s))
      (analyze_spatial_relationships sqrt manual_clusters bench_components)
  = map (λ c, (cl_id c, cl_component_count c, cl_arrondissement c))
        (filter (λ c, (2 ≤ length (isin bench_components (cl_component_ids c)))%nat)
                (multi_component_clusters manual_clusters)).
Proof.
  unfold analyze_spatial_relationships.
  induction (multi_component_clusters manual_clusters) as [|c cs IH]; [done|].
  rewrite filter_cons. cbn [omap list_omap].
  pose proof (spatial_entry_spec bench_components c) as Hc. cbv zeta in Hc.
  destruct (spatial_entry sqrt bench_components c) as [s|].
  - destruct Hc as (Hn & Hid & Hcc & Harr & _).
    rewrite decide_True by done. simpl. by rewrite Hid, Hcc, Harr, IH.
  - rewrite decide_False by lia. done.
Qed.

(** X12: for a multi-component bench cluster with at least two components
    in the frame, the spatial statistics and the multi-component geometry
    record the same minimum, maximum and mean distance. *)
Theorem spatial_and_geometry_agree (bench_components : list BenchRow)
    (cluster : ManualCluster) :
  (2 ≤ length (isin bench_components (cl_component_ids cluster)))%nat →
  ∃ s p,
    spatial_entry sqrt bench_components cluster = Some s
    ∧ geometry_entry sqrt bench_components cluster = Some p
    ∧ pt_cluster_id p = sp_cluster_id s
    ∧ min_distance_m p = min_distance s
    ∧ max_distance_m p = max_distance s
    ∧ mean_distance_m p = mean_distance s
    ∧ max_distance s = cluster_max_distance sqrt bench_components cluster.
Proof.
  intros Hn.
  pose proof (spatial_entry_spec bench_components cluster) as Hs. cbv zeta in Hs.
  pose proof (geometry_entry_spec sqrt bench_components cluster) as Hp.
  cbv zeta in Hp.
  destruct (spatial_entry sqrt bench_components cluster) as [s|]; [|lia].
  destruct Hs as (_ & _ & _ & _ & p & Hentry & Hid & Hmin & Hmax & Hmean).
  rewrite Hentry in Hp. destruct Hp as (_ & _ & Hcmax & _).
  exists s, p. repeat (split; [done|]). by rewrite <- Hmax.
Qed.

End Spatial.

Lemma spatial_and_geometry_agree_witness :
  ∃ s p,
    spatial_entry Qsqrt sample_rows (cluster 3 "benches" [3%Z; 4%Z] 2) = Some s
    ∧ geometry_entry Qsqrt sample_rows (cluster 3 "benches" [3%Z; 4%Z] 2) = Some p
    ∧ pt_cluster_id p = sp_cluster_id s
    ∧ min_distance_m p = min_distance s
    ∧ max_distance_m p = max_distance s
    ∧ mean_distance_m p = mean_distance s
    ∧ max_distance s
      = cluster_max_distance Qsqrt sample_rows (cluster 3 "benches" [3%Z; 4%Z] 2).
Proof.
  apply (spatial_and_geometry_agree Qsqrt sample_rows
           (cluster 3 "benches" [3%Z; 4%Z] 2)).
  vm_compute. lia.
Defined.

(** ** Canonical statistics and rules of a loaded frame *)

Section Canonical.

Context (sqrt : Q → Q).

(** The rows of a frame made by loading and joining have the envelope of a
    retained component. *)
Lemma frame_rows_envelope (manual_clusters : list ManualCluster)
    (raw_list : list RawComponent) (raw_data : list Component)
    (bench_components : list BenchRow) (r : BenchRow) :
  load_data sqrt manual_clusters raw_list = Ok raw_data →
  extract_bench_components manual_clusters raw_data = Ok bench_components →
  r ∈ bench_components →
  0 <= envelope_width_m (comp r)
  ∧ envelope_width_m (comp r) <= envelope_length_m (comp r)
  ∧ 0 <= aspect_ratio (comp r) ∧ aspect_ratio (comp r) <= 1.
Proof.
  intros Hload Hext Hr.
  apply extract_bench_components_inv in Hext as [_ ->].
  apply list_elem_of_fmap in Hr as (c & -> & Hc). simpl.
  destruct (filter_components_inv sqrt _ _ _ _ Hload Hc) as (r0 & _ & _ & Ha).
  by eapply augment_unit_interval.
Qed.

(** X14: on raw records whose coordinate lists are not empty where a bench
    cluster refers to them, every single-component rule of the frame made by
    loading and joining has a point count of 2 at least, an aspect-ratio
    range within 0 to 1, a canonical width between 0 and the canonical
    length, and a width tolerance between 0 and the length tolerance. *)
Theorem single_rule_bounds (manual_clusters : list ManualCluster)
    (raw_list : list RawComponent) (raw_data : list Component)
    (bench_components : list BenchRow) (pc : nat) (rule : SingleRule) :
  Forall (λ r, objectid r ∈ bench_ids manual_clusters → coordinates r ≠ [])
         raw_list →
  load_data sqrt manual_clusters raw_list = Ok raw_data →
  extract_bench_components manual_clusters raw_data = Ok bench_components →
  single_component_benches
    (generate_detection_rules sqrt manual_clusters bench_components) !! pc = Some rule →
  sr_point_count rule = pc ∧ (2 ≤ pc)%nat ∧ (0 < sr_sample_count rule)%nat
  ∧ 0 <= aspect_ratio_min rule
  ∧ aspect_ratio_min rule <= aspect_ratio_max rule
  ∧ aspect_ratio_max rule <= 1
  ∧ 0 <= envelope_width_canonical rule
  ∧ envelope_width_canonical rule <= envelope_length_canonical rule
  ∧ 0 <= envelope_width_tolerance_2pct rule
  ∧ envelope_width_tolerance_2pct rule <= envelope_length_tolerance_2pct rule.
Proof.
  intros _ Hload Hext. rewrite single_rules_lookup.
  destruct (point_count_subset _ pc) as [|r0 group0] eqn:E; [done|].
  rewrite <- E. intros [= <-]. simpl.
  set (group := point_count_subset (single_benches bench_components) pc) in *.
  assert (∀ r, r ∈ group →
               0 <= envelope_width_m (comp r)
               ∧ envelope_width_m (comp r) <= envelope_length_m (comp r)
               ∧ 0 <= aspect_ratio (comp r) ∧ aspect_ratio (comp r) <= 1) as Hrows.
  { intros r [_ [_ Hr]%list_elem_of_filter]%list_elem_of_filter.
    by eapply frame_rows_envelope. }
  assert (group ≠ []) as Hne by (by rewrite E).
  assert (∀ f : BenchRow → Q, map f group ≠ []) as Hmap
    by (intros f; rewrite E; done).
  split; [done|]. split.
  { assert (r0 ∈ group) as Hr0 by (rewrite E; left).
    apply list_elem_of_filter in Hr0 as [Hpc [_ Hr0]%list_elem_of_filter].
    apply extract_bench_components_inv in Hext as [_ ->].
    apply list_elem_of_fmap in Hr0 as (c & -> & Hc). simpl in Hpc.
    destruct (filter_components_inv sqrt _ _ _ _ Hload Hc) as (r1 & _ & _ & Ha).
    destruct (augment_point_count sqrt _ _ Ha) as (_ & ?). lia. }
  split; [rewrite E; simpl; lia|].
  assert (0 <= np_min (map (λ r, aspect_ratio (comp r)) group)) as Hmin.
  { apply np_min_glb; [done|].
    intros y (r & -> & Hr)%list_elem_of_fmap. by apply Hrows. }
  assert (np_max (map (λ r, aspect_ratio (comp r)) group) <= 1) as Hmax.
  { apply np_max_lub; [done|].
    intros y (r & -> & Hr)%list_elem_of_fmap. by apply Hrows. }
  pose proof (np_min_le_max _ (Hmap (λ r, aspect_ratio (comp r)))) as Hmm.
  assert (0 <= np_mean (map (λ r, envelope_width_m (comp r)) group)) as Hw.
  { apply np_mean_nonneg.
    intros y (r & -> & Hr)%list_elem_of_fmap. by apply Hrows. }
  assert (np_mean (map (λ r, envelope_width_m (comp r)) group)
          <= np_mean (map (λ r, envelope_length_m (comp r)) group)) as Hwl.
  { apply np_mean_le. intros r Hr. by apply Hrows. }
  repeat (split; [done || lra|]). lra.
Qed.

End Canonical.

Lemma single_rule_bounds_witness :
  ∃ rule,
    single_component_benches
      (generate_detection_rules Qsqrt sample_clusters sample_rows) !! 3%nat = Some rule
    ∧ sr_point_count rule = 3%nat ∧ (2 ≤ 3)%nat ∧ (0 < sr_sample_count rule)%nat
    ∧ 0 <= aspect_ratio_min rule
    ∧ aspect_ratio_min rule <= aspect_ratio_max rule
    ∧ aspect_ratio_max rule <= 1
    ∧ 0 <= envelope_width_canonical rule
    ∧ envelope_width_canonical rule <= envelope_length_canonical rule
    ∧ 0 <= envelope_width_tolerance_2pct rule
    ∧ envelope_width_tolerance_2pct rule <= envelope_length_tolerance_2pct rule.
Proof.
  destruct (single_component_benches
              (generate_detection_rules Qsqrt sample_clusters sample_rows) !! 3%nat)
    as [rule|] eqn:Hr.
  - exists rule. split; [done|].
    apply (single_rule_bounds Qsqrt sample_clusters sample_raw sample_loaded
             sample_rows 3 rule).
    + repeat constructor; by intros _.
    + vm_compute. reflexivity.
    + vm_compute. reflexivity.
    + exact Hr.
  - vm_compute in Hr. discriminate Hr.
Defined.

(** ** Patterns of point counts *)

Section Patterns.

Context (sqrt : Q → Q).

Lemma geometry_entry_pattern (bench_components : list BenchRow)
    (cluster : ManualCluster) (p : Pattern) :
  geometry_entry sqrt bench_components cluster = Some p →
  let components := isin bench_components (cl_component_ids cluster) in
  point_count_pattern p
    = merge_sort (≤)%nat (map (λ r, point_count (comp r)) components)
  ∧ pt_cluster_id p = cl_id cluster
  ∧ length components ≠ 0%nat.
Proof.
  unfold geometry_entry. cbv zeta.
  destruct (decide (length _ = 0%nat)) as [?|Hn]; [done|].
  destruct (decide (2 ≤ length _)%nat); by intros [= <-].
Qed.

Lemma geometry_entry_is_Some (bench_components : list BenchRow)
    (cluster : ManualCluster) :
  length (isin bench_components (cl_component_ids cluster)) ≠ 0%nat →
  is_Some (geometry_entry sqrt bench_components cluster).
Proof.
  intros Hn. pose proof (geometry_entry_spec sqrt bench_components cluster) as Hp.
  cbv zeta in Hp. destruct (geometry_entry _ _ _); [by eexists | done].
Qed.

Lemma group_patterns_ids (bench_components : list BenchRow)
    (clusters : list ManualCluster) (cc : Z) :
  map pt_cluster_id (group_patterns sqrt bench_components clusters cc)
  = map cl_id
        (filter (λ c, cl_component_count c = cc
                      ∧ length (isin bench_components (cl_component_ids c)) ≠ 0%nat)
                clusters).
Proof.
  unfold group_patterns. induction clusters as [|c cs IH]; [done|].
  rewrite !filter_cons.
  pose proof (geometry_entry_spec sqrt bench_components c) as Hc. cbv zeta in Hc.
  destruct (decide (cl_component_count c = cc)) as [Hcc|Hcc].
  - cbn [omap list_omap]. destruct (geometry_entry sqrt bench_components c) as [p|].
    + destruct Hc as (Hn & Hid & _).
      rewrite decide_True by done. simpl. by rewrite Hid, IH.
    + rewrite decide_False by tauto. done.
  - rewrite decide_False by tauto. done.
Qed.

(** X15: the point patterns of a clustering rule are the sorted point
    counts of the components in the frame of the examples of its group, one
    pattern for each example, equal patterns counted once. *)
Theorem typical_point_patterns_of_examples (manual_clusters : list ManualCluster)
    (bench_components : list BenchRow) (cc : Z) (rule : ClusteringRule) :
  multi_component_clustering
    (generate_detection_rules sqrt manual_clusters bench_components) !! cc = Some rule →
  ∀ pattern,
    pattern ∈ typical_point_patterns rule
    ↔ ∃ c, c ∈ group_examples manual_clusters bench_components cc
           ∧ pattern
             = merge_sort (≤)%nat
                 (map (λ r, point_count (comp r))
                      (isin bench_components (cl_component_ids c)))
           ∧ Sorted (≤)%nat pattern
           ∧ pattern ≡ₚ map (λ r, point_count (comp r))
                            (isin bench_components (cl_component_ids c)).
Proof.
  intros Hrule pattern.
  destruct (clustering_rule_of_group sqrt manual_clusters bench_components cc)
    as [_ Hlookup].
  rewrite Hlookup in Hrule.
  destruct (group_examples manual_clusters bench_components cc) eqn:E; [done|].
  rewrite <- E in *. clear E.
  unfold clustering_rule in Hrule.
  destruct (decide (0 < length _)%nat); [|done]. injection Hrule as <-. simpl.
  rewrite elem_of_list_to_set, list_elem_of_fmap. split.
  - intros (p & -> & (c & Hc & Hp)%list_elem_of_omap).
    apply list_elem_of_filter in Hc as [Hcc Hc].
    destruct (geometry_entry_pattern _ _ _ Hp) as (Hpat & _ & Hn).
    exists c. split; [by apply list_elem_of_filter|]. split; [done|].
    rewrite Hpat. split; [apply (Sorted_merge_sort (≤)%nat)|].
    apply merge_sort_Permutation.
  - intros (c & Hc & -> & _).
    apply list_elem_of_filter in Hc as [[Hcc Hn] Hc].
    destruct (geometry_entry_is_Some bench_components c Hn) as [p Hp].
    exists p. destruct (geometry_entry_pattern _ _ _ Hp) as (Hpat & _ & _).
    split; [done|]. apply list_elem_of_omap. exists c.
    split; [by apply list_elem_of_filter | done].
Qed.

(** X16: a component count that some multi-component bench cluster has is a
    key of the geometric patterns, with one pattern for each of its clusters
    with a component in the frame, in the order of the clusters file; where
    none of them has one the entry is empty and the count gets no clustering
    rule.  Other counts are no keys. *)
Theorem geometric_patterns_entries (manual_clusters : list ManualCluster)
    (bench_components : list BenchRow) (cc : Z) :
  match analyze_multi_component_geometry sqrt manual_clusters bench_components !! cc with
  | None =>
      ∀ c, c ∈ multi_component_clusters manual_clusters → cl_component_count c ≠ cc
  | Some patterns =>
      (∃ c, c ∈ multi_component_clusters manual_clusters ∧ cl_component_count c = cc)
      ∧ map pt_cluster_id patterns
        = map cl_id (group_examples manual_clusters bench_components cc)
      ∧ (patterns = [] ↔
         multi_component_clustering
           (generate_detection_rules sqrt manual_clusters bench_components) !! cc = None)
  end.
Proof.
  rewrite clustering_rules_lookup, geometric_patterns_lookup.
  destruct (decide (Exists _ _)) as [He|He].
  - apply Exists_exists in He. split; [done|]. split; [apply group_patterns_ids|].
    simpl. unfold clustering_rule.
    destruct (group_patterns sqrt bench_components _ cc) as [|p ps]; simpl; done.
  - intros c Hc Hcc. apply He, Exists_exists. by exists c.
Qed.

End Patterns.

Lemma typical_point_patterns_of_examples_witness :
  ∃ rule,
    multi_component_clustering
      (generate_detection_rules Qsqrt sample_clusters sample_rows) !! 2%Z = Some rule
    ∧ ∀ pattern,
        pattern ∈ typical_point_patterns rule
        ↔ ∃ c, c ∈ group_examples sample_clusters sample_rows 2
               ∧ pattern
                 = merge_sort (≤)%nat
                     (map (λ r, point_count (comp r))
                          (isin sample_rows (cl_component_ids c)))
               ∧ Sorted (≤)%nat pattern
               ∧ pattern ≡ₚ map (λ r, point_count (comp r))
                                (isin sample_rows (cl_component_ids c)).
Proof.
  destruct (multi_component_clustering
              (generate_detection_rules Qsqrt sample_clusters sample_rows) !! 2%Z)
    as [rule|] eqn:Hr.
  - exists rule. split; [done|].
    exact (typical_point_patterns_of_examples Qsqrt sample_clusters sample_rows 2
             rule Hr).
  - vm_compute in Hr. discriminate Hr.
Defined.

(** ** The sections of the results *)

Lemma size_list_to_set_le `{Countable T} (l : list T) :
  (size (list_to_set l : gset T) ≤ length l)%nat.
Proof.
  induction l as [|x l IH]; [by rewrite list_to_set_nil, size_empty|].
  rewrite list_to_set_cons, size_union_alt, size_singleton. simpl.
  pose proof (subseteq_size (list_to_set l ∖ {[x]}) (list_to_set l : gset T)) as Hs.
  assert (list_to_set l ∖ {[x]} ⊆ (list_to_set l : gset T)) as Hsub
    by (intros y [? _]%elem_of_difference; done).
  specialize (Hs Hsub). lia.
Qed.

Lemma size_list_to_set_pos `{Countable T} (l : list T) :
  l ≠ [] → (0 < size (list_to_set l : gset T))%nat.
Proof.
  destruct l as [|x l]; [done|]. intros _.
  destruct (size (list_to_set (x :: l) : gset T)) eqn:Hsize; [|lia].
  apply size_empty_inv in Hsize.
  assert (x ∈ (list_to_set (x :: l) : gset T)) as Hx
    by (apply elem_of_list_to_set; left).
  rewrite Hsize in Hx. by apply not_elem_of_empty in Hx.
Qed.

(** Every row of a frame made by loading and joining has cluster
    information. *)
Lemma frame_rows_info (sqrt : Q → Q) (manual_clusters : list ManualCluster)
    (raw_list : list RawComponent) (raw_data : list Component)
    (bench_components : list BenchRow) :
  load_data sqrt manual_clusters raw_list = Ok raw_data →
  extract_bench_components manual_clusters raw_data = Ok bench_components →
  filter (λ r, is_Some (info r)) bench_components = bench_components
  ∧ bench_components ≠ [].
Proof.
  intros Hload Hext.
  apply extract_bench_components_inv in Hext as [Hne ->].
  split; [|by destruct raw_data].
  assert (∀ c, c ∈ raw_data → is_Some (id_to_cluster manual_clusters !! objectid (raw c)))
    as Hinfo.
  { intros c Hc.
    destruct (filter_components_inv sqrt _ _ _ _ Hload Hc) as (r0 & _ & Hid & Ha).
    destruct (augment_inv sqrt _ _ Ha) as [_ ->].
    apply elem_of_dom. by rewrite dom_id_to_cluster. }
  clear Hload Hne. induction raw_data as [|c data IH]; [done|].
  cbn [map]. rewrite filter_cons, decide_True by (apply Hinfo; left).
  f_equal. apply IH. intros c' Hc'. apply Hinfo. by right.
Qed.

(** X17: in the results of the full analysis the counts of the pattern
    analysis and those of the component count distribution each add up to
    the number of bench components, the number of unique clusters is between
    1 and that number, and the single-component rules are made, key by key,
    of the canonical dimensions of the results. *)
Theorem results_sections_agree (sqrt : Q → Q) (fs : FileSystem)
    (manual_clusters : list ManualCluster) (raw_list : list RawComponent)
    (results : Results) :
  run_full_analysis sqrt fs manual_clusters raw_list = Ok results →
  counter_total (pattern_analysis results)
    = total_bench_components (summary results)
  ∧ counter_total (sm_component_count_distribution (summary results))
    = total_bench_components (summary results)
  ∧ (1 ≤ unique_clusters (summary results))%nat
  ∧ (unique_clusters (summary results) ≤ total_bench_components (summary results))%nat
  ∧ ∀ pc, single_component_benches (detection_rules results) !! pc
          = single_rule pc <$> canonical_dimensions results !! pc.
Proof.
  unfold run_full_analysis.
  destruct (load_data sqrt manual_clusters raw_list) as [raw_data|] eqn:Hload;
    [|done].
  simpl.
  destruct (extract_bench_components manual_clusters raw_data) as [rows|] eqn:Hext;
    [|done].
  simpl. intros [= <-]. simpl.
  destruct (frame_rows_info sqrt _ _ _ _ Hload Hext) as [Hinfo Hne].
  split; [|split; [|split; [|split]]].
  - unfold analyze_component_patterns.
    rewrite (counter_total_foldl
               (λ r : BenchRow,
                  (λ i, (component_count i, point_count (comp r))) <$> info r)),
      counter_total_empty.
    + simpl. rewrite <- Hinfo at 2. f_equal. apply list_filter_iff.
      intros r. destruct (info r) as [i|]; simpl; [|done].
      split; intros _; by eexists.
    + intros d r. by destruct (info r).
  - rewrite (counter_total_foldl (λ r : BenchRow, component_count <$> info r)),
      counter_total_empty.
    + simpl. rewrite <- Hinfo at 2. f_equal. apply list_filter_iff.
      intros r. destruct (info r) as [i|]; simpl; [|done].
      split; intros _; by eexists.
    + intros d r. by destruct (info r).
  - apply (size_list_to_set_pos (map (λ r, cluster_id <$> info r) rows)).
    by destruct rows.
  - rewrite <- (length_map (λ r, cluster_id <$> info r) rows).
    apply size_list_to_set_le.
  - intros pc. rewrite map_lookup_imap.
    by destruct (calculate_canonical_dimensions sqrt rows !! pc).
Qed.

Lemma results_sections_agree_witness :
  ∃ results,
    run_full_analysis Qsqrt sample_disk sample_clusters sample_raw = Ok results
    ∧ counter_total (pattern_analysis results)
      = total_bench_components (summary results)
    ∧ counter_total (sm_component_count_distribution (summary results))
      = total_bench_components (summary results)
    ∧ (1 ≤ unique_clusters (summary results))%nat
    ∧ (unique_clusters (summary results) ≤ total_bench_components (summary results))%nat
    ∧ ∀ pc, single_component_benches (detection_rules results) !! pc
            = single_rule pc <$> canonical_dimensions results !! pc.
Proof.
  destruct (run_full_analysis Qsqrt sample_disk sample_clusters sample_raw)
    as [results|e] eqn:Hrun.
  - exists results. split; [done|].
    exact (results_sections_agree Qsqrt sample_disk sample_clusters sample_raw
             results Hrun).
  - vm_compute in Hrun. discriminate Hrun.
Defined.

(** ** Manual component ids *)

Lemma bench_ids_list_to_set (manual_clusters : list ManualCluster) :
  bench_ids manual_clusters
  = list_to_set (concat (map cl_component_ids (bench_clusters manual_clusters))).
Proof.
  apply set_eq. intros x.
  rewrite elem_of_list_to_set, elem_of_bench_ids, list_elem_of_In, in_concat. split.
  - intros (c & Hc & Hty & Hx). exists (cl_component_ids c).
    split; [|by apply list_elem_of_In].
    apply list_elem_of_In, list_elem_of_fmap. exists c. split; [done|].
    by apply list_elem_of_filter.
  - intros (ids & (c & -> & Hc)%list_elem_of_In%list_elem_of_fmap & Hx%list_elem_of_In).
    apply list_elem_of_filter in Hc as [Hty Hc]. by exists c.
Qed.

(** X18: the number of manual components of the validation is the number of
    different ids in the component lists of the bench clusters: an id that
    several clusters list, or one cluster lists twice, counts once. *)
Theorem manual_components_are_distinct_ids (fs : FileSystem)
    (manual_clusters : list ManualCluster) (detection_results_path : option string) :
  let listed := concat (map cl_component_ids (bench_clusters manual_clusters)) in
  ∃ v,
    validate_against_current_detection fs manual_clusters detection_results_path = Ok v
    ∧ match v with
      | ValidationBaseline b => bl_manual_components b
      | ValidationMetrics m => mt_manual_components m
      end = length (remove_dups listed)
    ∧ (length (remove_dups listed) ≤ length listed)%nat.
Proof.
  intros listed.
  assert (size (bench_ids manual_clusters) = length (remove_dups listed)) as Hsize.
  { rewrite bench_ids_list_to_set. fold listed.
    rewrite <- (size_list_to_set (C := gset Z) (remove_dups listed))
      by apply NoDup_remove_dups.
    f_equal. apply set_eq. intros x.
    by rewrite !elem_of_list_to_set, elem_of_remove_dups. }
  pose proof (validate_cases fs manual_clusters detection_results_path) as Hv.
  cbv zeta in Hv.
  assert (length (remove_dups listed) ≤ length listed)%nat as Hle.
  { clear. induction listed as [|x l IH]; [done|]. simpl.
    destruct (decide_rel elem_of x l); simpl; lia. }
  destruct (detection_file fs detection_results_path);
    eexists; (split; [exact Hv|]); simpl; by split.
Qed.
